(** * mautrix-go: the sync loop of [client.go] and the delivery checkpoints
      of [appservice/message_send_checkpoint.go]

    A shallow embedding of the two Go files and the properties their
    design document states about them.

    Conventions of the embedding.
    - Go strings and byte slices are [string]; [+:+] is Go's [+] on strings.
    - Go's [error] interface is the type [error] below; a possibly-nil
      error is an [option error], [None] standing for [nil].
    - Calls that leave the process (HTTP round trips, the websocket, the
      state store, the syncer callbacks) are recorded in a trace of
      events, in program order; what the outside world answers is an
      explicit argument of the embedded function.
    - Pointers to structs that the code dereferences unconditionally
      ([evt], the decoded [resSync] of a successful fetch) are values. *)

From Stdlib Require Import ZArith String Ascii List Lia.
From stdpp Require Import base gmap strings list pretty.

Local Open Scope Z_scope.

(** ** Errors *)

(** Modelled from the spec: the recognized error-code/message structure
    ([RespError]); its declaration and its [Error] method live outside the
    two files at hand.  The spec names an error code and a message. *)
Record RespError := mkRespError {
  ErrCode : string;
  Err : string
}.

(** [type HTTPError struct] of client.go, over the type of wrapped errors. *)
Record HTTPError (E : Type) := mkHTTPError {
  WrappedError : option E;
  RespError_ : option RespError;
  Message : string;
  Code : Z
}.
Arguments mkHTTPError {E} _ _ _ _.
Arguments WrappedError {E} _.
Arguments RespError_ {E} _.
Arguments Message {E} _.
Arguments Code {E} _.

(** The values that inhabit Go's [error] interface in the two files. *)
#[warnings="-register-all"]
Inductive error : Type :=
| errorString (msg : string)
    (* an error of a library: transport, encoder, URL parser *)
| wrapError (msg : string) (cause : error)
    (* fmt.Errorf with a %w verb; [msg] is the text before the cause *)
| respError (r : RespError)
| httpError (h : HTTPError error).

Definition RespError_Error (r : RespError) : string :=
  ErrCode r +:+ ": " +:+ Err r.

(** [err.Error()]; the [httpError] case is [func (e HTTPError) Error()]. *)
Fixpoint Error (e : error) : string :=
  match e with
  | errorString msg => msg
  | wrapError msg cause => msg +:+ Error cause
  | respError r => RespError_Error r
  | httpError h =>
      let wrappedErrMsg :=
        match WrappedError h with
        | Some w => Error w
        | None => ""
        end in
      "msg=" +:+ Message h +:+ " code=" +:+ pretty (Code h)
        +:+ " wrapped=" +:+ wrappedErrMsg
  end.

(** [s] occurs in [t] as a contiguous run of bytes. *)
Definition contains (t s : string) : Prop :=
  exists pre post : string, t = pre +:+ s +:+ post.

(** Go's [time.Duration] counts nanoseconds. *)
Definition Duration := Z.
Definition Second : Duration := 1000000000.

(** ** client.go: [MakeRequest] *)

Module Mautrix.

(** What [http.NewRequest] hands back, as far as [MakeRequest] touches it. *)
Record Request := mkRequest {
  Method : string;
  URL : string;              (* req.URL.String() *)
  URL_Path : string;         (* req.URL.Path *)
  Header : gmap string string;
  Body : option string
}.

Definition Header_Set (k v : string) (req : Request) : Request :=
  {| Method := Method req; URL := URL req; URL_Path := URL_Path req;
     Header := <[k := v]> (Header req); Body := Body req |}.

(** An HTTP response as [MakeRequest] consumes it: the status code and
    what [ioutil.ReadAll(res.Body)] returns, the bytes read and the read
    error (the bytes are those read before the error, if any). *)
Record Response := mkResponse {
  StatusCode : Z;
  ReadAll_contents : string;
  ReadAll_err : option error
}.

Section MakeRequest.
(** The library calls of [MakeRequest]; their code is Go's, not the
    repository's. *)
Variable Any : Type.                         (* interface{} *)
Variable json_Marshal : Any -> string + error.
Variable http_NewRequest : string -> string -> option string -> Request + error.
Variable Client_Do : Request -> Response + error.
(** [json.Unmarshal(contents, respErr)] on a fresh [&RespError{}], its
    error dropped as the code drops it: the struct afterwards. *)
Variable json_Unmarshal_RespError : string -> RespError.
(** [json.Unmarshal(contents, &resBody)]: the error it returns. *)
Variable json_Unmarshal : string -> Any -> option error.

Variables (UserAgent AccessToken : string).

(** [res.StatusCode/100 != 2]; Go's integer division truncates. *)
Definition not2xx (status : Z) : bool := negb (Z.quot status 100 =? 2).

(** The branch of [MakeRequest] taken for a response that is not 2xx. *)
Definition errorResponse (method : string) (req : Request) (res : Response)
    : option string * option error :=
  let contents := ReadAll_contents res in
  let respErr := json_Unmarshal_RespError contents in
  let '(wrap, respErr) :=
    if bool_decide (ErrCode respErr <> "")
    then (Some (respError respErr), Some respErr)
    else (None, None) in
  let msg := "Failed to " +:+ method +:+ " JSON to " +:+ URL_Path req in
  let msg := match wrap with
             | None => msg +:+ ": " +:+ contents
             | Some _ => msg
             end in
  (Some contents,
   Some (httpError {| Code := StatusCode res; Message := msg;
                      WrappedError := wrap; RespError_ := respErr |})).

(** The first part of [MakeRequest]: the body is marshalled and the
    request is created; [logBody] is the marshalled body, empty when
    there is none. *)
Definition newRequest (method httpURL : string) (reqBody : option Any)
    : Request * string + error :=
  match reqBody with
  | Some b =>
      match json_Marshal b with
      | inr err => inr err
      | inl jsonStr =>
          match http_NewRequest method httpURL (Some jsonStr) with
          | inl req => inl (req, jsonStr)
          | inr err => inr err
          end
      end
  | None =>
      match http_NewRequest method httpURL None with
      | inl req => inl (req, "")
      | inr err => inr err
      end
  end.

(** The headers [MakeRequest] sets before it sends the request. *)
Definition setHeaders (req : Request) (logBody : string) : Request :=
  let req := if (0 <? Z.of_nat (String.length logBody))
             then Header_Set "Content-Type" "application/json" req
             else req in
  let req := Header_Set "User-Agent" UserAgent req in
  Header_Set "Authorization" ("Bearer " +:+ AccessToken) req.

(** [func (cli *Client) MakeRequest]: the returned bytes ([None] is a nil
    slice) and the returned error.  The debug line of [LogRequest] has
    no part in either and is left out. *)
Definition MakeRequest (method httpURL : string)
    (reqBody resBody : option Any) : option string * option error :=
  match newRequest method httpURL reqBody with
  | inr err => (None, Some err)
  | inl (req, logBody) =>
      let req := setHeaders req logBody in
      match Client_Do req with
      | inr err => (None, Some err)
      | inl res =>
          if not2xx (StatusCode res) then errorResponse method req res
          else
            match ReadAll_err res with
            | Some err => (None, Some err)
            | None =>
                let contents := ReadAll_contents res in
                match resBody with
                | Some rb =>
                    match json_Unmarshal contents rb with
                    | Some err => (None, Some err)
                    | None => (Some contents, None)
                    end
                | None => (Some contents, None)
                end
            end
      end
  end.
End MakeRequest.

(** ** client.go: [Sync] and [StopSync] *)

(** The decoded body of a /sync response: the continuation token and the
    rest of the payload, which [Sync] only passes on. *)
Record RespSync := mkRespSync {
  NextBatch : string;
  Payload : string
}.

Record RespCreateFilter := mkRespCreateFilter {
  FilterID : string
}.

(** The methods of the [Storer] interface that [Sync] calls, over the
    state of the store. *)
Class Storer (St : Type) := {
  SaveFilterID : St -> string -> string -> St;
  LoadFilterID : St -> string -> string;
  SaveNextBatch : St -> string -> string -> St;
  LoadNextBatch : St -> string -> string
}.

(** The [Syncer] interface, over the state of the syncer. *)
Class Syncer (Sy : Type) := {
  ProcessResponse : Sy -> RespSync -> string -> Sy * option error;
  OnFailedSync : Sy -> option RespSync -> error -> Sy * (Duration * option error);
  GetFilterJSON : Sy -> string -> string
}.

(** What the cycle does that is visible outside it, in program order. *)
Inductive Event :=
| EvLoadNextBatch (userID : string)
| EvLoadFilterID (userID : string)
| EvGetFilterJSON (userID : string)
| EvCreateFilter (filterJSON : string)
| EvSaveFilterID (userID filterID : string)
| EvSyncRequest (timeout : Z) (since filterID : string) (fullState : bool)
                (setPresence : string)
| EvOnFailedSync (resSync : option RespSync) (err : error)
| EvSleep (d : Duration)
| EvSaveNextBatch (userID nextBatch : string)
| EvProcessResponse (resSync : RespSync) (since : string).

(** What another goroutine may call on the same client while this cycle
    waits for its long poll.  Only the effect on [syncingID] is modelled:
    both calls go through [incrementSyncingID].  The cycle reads
    [syncingID] at one place only, after a fetch that succeeded, so every
    call made since it last read it counts as made during the long poll
    that precedes the next read. *)
Inductive Concurrent := OtherStopSync | OtherSync.

(** What [SyncRequest] returns: [(resp, nil)] or [(resp, err)], where a
    failed request may leave [resp] nil. *)
Inductive FetchResult :=
| FetchOK (resSync : RespSync)
| FetchErr (resSync : option RespSync) (err : error).

(** One long poll as the cycle lives it: what happened on the client
    while the request was in flight, and what the request returned. *)
Record FetchStep := mkFetchStep {
  meanwhile : list Concurrent;
  result : FetchResult
}.

(** How an iteration of the [for] loop ends. *)
Inductive LoopCtl :=
| Continue (nextBatch : string)
| Return (err : option error).

(** How far a call of [Sync] got on a finite script of long polls:
    it returned, or its next long poll has not returned yet. *)
Inductive Outcome :=
| Returned (err : option error)
| InFlight.

Section Sync.
Context {St Sy : Type} `{Storer St} `{Syncer Sy}.

Record Client := mkClient {
  UserID : string;
  SyncPresence : string;
  Syncer_ : Sy;
  Store : St;
  syncingID : Z            (* uint32, guarded by syncingMutex *)
}.

Definition with_syncingID (n : Z) (c : Client) : Client :=
  {| UserID := UserID c; SyncPresence := SyncPresence c;
     Syncer_ := Syncer_ c; Store := Store c; syncingID := n |}.
Definition with_Store (s : St) (c : Client) : Client :=
  {| UserID := UserID c; SyncPresence := SyncPresence c;
     Syncer_ := Syncer_ c; Store := s; syncingID := syncingID c |}.
Definition with_Syncer (s : Sy) (c : Client) : Client :=
  {| UserID := UserID c; SyncPresence := SyncPresence c;
     Syncer_ := s; Store := Store c; syncingID := syncingID c |}.

(** Computations on the client that record the events they cause. *)
Definition M (A : Type) : Type := Client -> A * Client * list Event.

#[global] Instance M_ret : MRet M := fun A a c => (a, c, []).
#[global] Instance M_bind : MBind M := fun A B f m c =>
  let '(a, c1, t1) := m c in
  let '(b, c2, t2) := f a c1 in
  (b, c2, t1 ++ t2).

Definition read {A} (f : Client -> A) : M A := fun c => (f c, c, []).
Definition emit (e : Event) : M unit := fun c => (tt, c, [e]).

(** [cli.syncingID++] on a uint32, under the mutex. *)
Definition incrementSyncingID : M Z := fun c =>
  let n := (syncingID c + 1) mod 2 ^ 32 in
  (n, with_syncingID n c, []).

Definition getSyncingID : M Z := read syncingID.

(** [func (cli *Client) StopSync]. *)
Definition StopSync : M unit :=
  _ ← incrementSyncingID; mret tt.

Definition Store_LoadNextBatch (userID : string) : M string := fun c =>
  (LoadNextBatch (Store c) userID, c, [EvLoadNextBatch userID]).
Definition Store_LoadFilterID (userID : string) : M string := fun c =>
  (LoadFilterID (Store c) userID, c, [EvLoadFilterID userID]).
Definition Store_SaveFilterID (userID filterID : string) : M unit := fun c =>
  (tt, with_Store (SaveFilterID (Store c) userID filterID) c,
   [EvSaveFilterID userID filterID]).
Definition Store_SaveNextBatch (userID nextBatch : string) : M unit := fun c =>
  (tt, with_Store (SaveNextBatch (Store c) userID nextBatch) c,
   [EvSaveNextBatch userID nextBatch]).

Definition Syncer_GetFilterJSON (userID : string) : M string := fun c =>
  (GetFilterJSON (Syncer_ c) userID, c, [EvGetFilterJSON userID]).
Definition Syncer_OnFailedSync (resSync : option RespSync) (err : error)
    : M (Duration * option error) := fun c =>
  let '(sy, r) := OnFailedSync (Syncer_ c) resSync err in
  (r, with_Syncer sy c, [EvOnFailedSync resSync err]).
Definition Syncer_ProcessResponse (resSync : RespSync) (since : string)
    : M (option error) := fun c =>
  let '(sy, r) := ProcessResponse (Syncer_ c) resSync since in
  (r, with_Syncer sy c, [EvProcessResponse resSync since]).

Definition time_Sleep (d : Duration) : M unit := emit (EvSleep d).

(** The other goroutines' calls take effect one after the other. *)
Definition concurrently (calls : list Concurrent) (c : Client) : Client :=
  fold_left (fun c _ => snd (fst (incrementSyncingID c))) calls c.

(** [cli.SyncRequest(...)]: the request goes out, the other goroutines
    run while it is in flight, and it returns what the script says. *)
Definition SyncRequest (step : FetchStep) (timeout : Z)
    (since filterID : string) (fullState : bool) (setPresence : string)
    : M FetchResult := fun c =>
  (result step, concurrently (meanwhile step) c,
   [EvSyncRequest timeout since filterID fullState setPresence]).

(** [cli.CreateFilter(filterJSON)], answered by the homeserver. *)
Definition CreateFilter (answer : string -> RespCreateFilter + error)
    (filterJSON : string) : M (RespCreateFilter + error) := fun c =>
  (answer filterJSON, c, [EvCreateFilter filterJSON]).

(** The body of the [for] loop of [Sync]. *)
Definition syncIteration (step : FetchStep) (syncingID : Z)
    (nextBatch filterID : string) : M LoopCtl :=
  presence ← read SyncPresence;
  r ← SyncRequest step 30000 nextBatch filterID false presence;
  match r with
  | FetchErr resSync err =>
      '(duration, err2) ← Syncer_OnFailedSync resSync err;
      match err2 with
      | Some err2 => mret (Return (Some err2))
      | None => _ ← time_Sleep duration; mret (Continue nextBatch)
      end
  | FetchOK resSync =>
      current ← getSyncingID;
      if bool_decide (current <> syncingID) then mret (Return None)
      else
        userID ← read UserID;
        _ ← Store_SaveNextBatch userID (NextBatch resSync);
        err ← Syncer_ProcessResponse resSync nextBatch;
        match err with
        | Some err => mret (Return (Some err))
        | None => mret (Continue (NextBatch resSync))
        end
  end.

(** The [for] loop, one iteration per long poll of the script.  When
    the script is used up the next request is out and has not
    returned. *)
Fixpoint syncLoop (script : list FetchStep) (syncingID : Z)
    (nextBatch filterID : string) : M Outcome :=
  match script with
  | [] =>
      presence ← read SyncPresence;
      _ ← emit (EvSyncRequest 30000 nextBatch filterID false presence);
      mret InFlight
  | step :: script =>
      ctl ← syncIteration step syncingID nextBatch filterID;
      match ctl with
      | Continue nextBatch => syncLoop script syncingID nextBatch filterID
      | Return err => mret (Returned err)
      end
  end.

(** [func (cli *Client) Sync]. *)
Definition Sync (createFilter : string -> RespCreateFilter + error)
    (script : list FetchStep) : M Outcome :=
  syncingID ← incrementSyncingID;
  userID ← read UserID;
  nextBatch ← Store_LoadNextBatch userID;
  filterID ← Store_LoadFilterID userID;
  if bool_decide (filterID = "") then
    filterJSON ← Syncer_GetFilterJSON userID;
    resFilter ← CreateFilter createFilter filterJSON;
    match resFilter with
    | inr err => mret (Returned (Some err))
    | inl resFilter =>
        let filterID := FilterID resFilter in
        _ ← Store_SaveFilterID userID filterID;
        syncLoop script syncingID nextBatch filterID
    end
  else syncLoop script syncingID nextBatch filterID.

(** The iterations the loop runs on a script, without the request that
    follows them: [Continue] with the token the loop stands at when the
    script is used up, [Return] when an iteration returned. *)
Fixpoint syncIterations (script : list FetchStep) (syncingID : Z)
    (nextBatch filterID : string) : M LoopCtl :=
  match script with
  | [] => mret (Continue nextBatch)
  | step :: script =>
      ctl ← syncIteration step syncingID nextBatch filterID;
      match ctl with
      | Continue nextBatch => syncIterations script syncingID nextBatch filterID
      | Return err => mret (Return err)
      end
  end.

(** The request an iteration of the loop sends. *)
Definition request (c : Client) (nextBatch filterID : string) : Event :=
  EvSyncRequest 30000 nextBatch filterID false (SyncPresence c).

(** The three components of a run. *)
Definition outcome {A} (r : A * Client * list Event) : A := fst (fst r).
Definition final {A} (r : A * Client * list Event) : Client := snd (fst r).
Definition trace {A} (r : A * Client * list Event) : list Event := snd r.

(** Reading off a trace. *)
Definition saves (tr : list Event) : list string :=
  omap (fun e => match e with
                 | EvSaveNextBatch _ t => Some t
                 | _ => None
                 end) tr.
Definition processed (tr : list Event) : list (RespSync * string) :=
  omap (fun e => match e with
                 | EvProcessResponse r since => Some (r, since)
                 | _ => None
                 end) tr.
Definition fetches (tr : list Event) : list string :=
  omap (fun e => match e with
                 | EvSyncRequest _ since _ _ _ => Some since
                 | _ => None
                 end) tr.
Definition failures (tr : list Event) : list (option RespSync * error) :=
  omap (fun e => match e with
                 | EvOnFailedSync r err => Some (r, err)
                 | _ => None
                 end) tr.
(** The events of the loop, as opposed to those before it. *)
Definition loopEvent (e : Event) : bool :=
  match e with
  | EvSyncRequest _ _ _ _ _ | EvOnFailedSync _ _ | EvSleep _
  | EvSaveNextBatch _ _ | EvProcessResponse _ _ => true
  | _ => false
  end.
End Sync.

Arguments Client St Sy : clear implicits.

End Mautrix.

(** Modelled from the spec: the Sync State Store, a durable key-value
    holder for the continuation token and the filter identifier of each
    account.  Its interface is [Storer]; the implementations are outside
    the two files.  Durable means that a load returns what the last save
    for that account stored. *)
Class DurableStorer (St : Type) `{Mautrix.Storer St} : Prop := {
  load_saved_next_batch : forall (s : St) (userID nextBatch : string),
    Mautrix.LoadNextBatch (Mautrix.SaveNextBatch s userID nextBatch) userID
    = nextBatch;
  load_saved_filter_id : forall (s : St) (userID filterID : string),
    Mautrix.LoadFilterID (Mautrix.SaveFilterID s userID filterID) userID
    = filterID
}.

(** A store held in memory: two maps keyed by the account, a missing key
    reading as the empty string. *)
Record InMemoryStore := mkInMemoryStore {
  Filters : gmap string string;
  NextBatches : gmap string string
}.

#[global] Instance InMemoryStore_Storer : Mautrix.Storer InMemoryStore := {
  SaveFilterID s userID filterID :=
    {| Filters := <[userID := filterID]> (Filters s);
       NextBatches := NextBatches s |};
  LoadFilterID s userID := default "" (Filters s !! userID);
  SaveNextBatch s userID nextBatch :=
    {| Filters := Filters s;
       NextBatches := <[userID := nextBatch]> (NextBatches s) |};
  LoadNextBatch s userID := default "" (NextBatches s !! userID)
}.

(** ** appservice/message_send_checkpoint.go *)

Module Appservice.

Definition MessageSendCheckpointStep := string.
Definition StepClient : MessageSendCheckpointStep := "CLIENT".
Definition StepHomeserver : MessageSendCheckpointStep := "HOMESERVER".
Definition StepBridge : MessageSendCheckpointStep := "BRIDGE".
Definition StepDecrypted : MessageSendCheckpointStep := "DECRYPTED".
Definition StepRemote : MessageSendCheckpointStep := "REMOTE".
Definition StepCommand : MessageSendCheckpointStep := "COMMAND".

Definition MessageSendCheckpointStatus := string.
Definition StatusSuccesss : MessageSendCheckpointStatus := "SUCCESS".
Definition StatusWillRetry : MessageSendCheckpointStatus := "WILL_RETRY".
Definition StatusPermFailure : MessageSendCheckpointStatus := "PERM_FAILURE".

Definition MessageSendCheckpointReportedBy := string.
Definition ReportedByAsmux : MessageSendCheckpointReportedBy := "ASMUX".
Definition ReportedByBridge : MessageSendCheckpointReportedBy := "BRIDGE".

(** [event.MessageEventContent] and [event.Content], as far as the
    checkpoint reads them: [evt.Content.AsMessage().MsgType]. *)
Record MessageEventContent := mkMessageEventContent {
  MsgType : string
}.
Record Content := mkContent {
  AsMessage : MessageEventContent
}.

Section Checkpoints.
(** The [event] package is outside the two files: its event kinds are
    a type with a decidable equality (Go compares them with [==]) and
    [event.EventMessage] is one of them. *)
Context {EventType : Type} `{EqDecision EventType}.
Variable EventMessage : EventType.
(** [mautrix.DefaultUserAgent]. *)
Variable DefaultUserAgent : string.

Record Event := mkEvent {
  ID : string;
  RoomID : string;
  Type_ : EventType;
  Content_ : Content
}.

Record MessageSendCheckpoint := mkMessageSendCheckpoint {
  cp_EventID : string;
  cp_RoomID : string;
  Step : MessageSendCheckpointStep;
  Timestamp : Z;
  Status : MessageSendCheckpointStatus;
  cp_EventType : EventType;
  ReportedBy : MessageSendCheckpointReportedBy;
  RetryNum : Z;
  MessageType : string;
  Info : string
}.

Definition with_MessageType (m : string) (cp : MessageSendCheckpoint) :=
  {| cp_EventID := cp_EventID cp; cp_RoomID := cp_RoomID cp; Step := Step cp;
     Timestamp := Timestamp cp; Status := Status cp;
     cp_EventType := cp_EventType cp; ReportedBy := ReportedBy cp;
     RetryNum := RetryNum cp; MessageType := m; Info := Info cp |}.
Definition with_Info (i : string) (cp : MessageSendCheckpoint) :=
  {| cp_EventID := cp_EventID cp; cp_RoomID := cp_RoomID cp; Step := Step cp;
     Timestamp := Timestamp cp; Status := Status cp;
     cp_EventType := cp_EventType cp; ReportedBy := ReportedBy cp;
     RetryNum := RetryNum cp; MessageType := MessageType cp; Info := i |}.

(** [func NewMessageSendCheckpoint]; [now] is what [time.Now()] reads.
    The fields the struct literal leaves out take Go's zero values. *)
Definition NewMessageSendCheckpoint (now : Z) (evt : Event)
    (step : MessageSendCheckpointStep) (status : MessageSendCheckpointStatus)
    : MessageSendCheckpoint :=
  let checkpoint :=
    {| cp_EventID := ID evt;
       cp_RoomID := RoomID evt;
       Step := step;
       Timestamp := now;
       Status := status;
       cp_EventType := Type_ evt;
       ReportedBy := ReportedByBridge;
       RetryNum := 0;
       MessageType := "";
       Info := "" |} in
  if decide (Type_ evt = EventMessage)
  then with_MessageType (MsgType (AsMessage (Content_ evt))) checkpoint
  else checkpoint.

(** The goroutine a [go checkpoint.Send(as)] statement starts. *)
Inductive Goroutine :=
| go_Send (checkpoint : MessageSendCheckpoint).

(** [func (as *AppService) SendMessageSendCheckpoint]. *)
Definition SendMessageSendCheckpoint (now : Z) (evt : Event)
    (step : MessageSendCheckpointStep) : Goroutine :=
  let checkpoint := NewMessageSendCheckpoint now evt step StatusSuccesss in
  go_Send checkpoint.

(** [func (as *AppService) SendErrorMessageSendCheckpoint].  A nil [err]
    panics at [err.Error()], before any goroutine starts: [None]. *)
Definition SendErrorMessageSendCheckpoint (now : Z) (evt : Event)
    (step : MessageSendCheckpointStep) (err : option error)
    (permanent : bool) : option Goroutine :=
  let status := if permanent then StatusPermFailure else StatusWillRetry in
  let checkpoint := NewMessageSendCheckpoint now evt step status in
  match err with
  | None => None
  | Some err =>
      let checkpoint := with_Info (Error err) checkpoint in
      Some (go_Send checkpoint)
  end.

Record CheckpointsJSON := mkCheckpointsJSON {
  Checkpoints : list MessageSendCheckpoint
}.

Record WebsocketRequest := mkWebsocketRequest {
  Command : string;
  Data : CheckpointsJSON
}.

(** The request [SendCheckpoints] builds: method, URL, headers, body and
    the timeout of the context it runs under. *)
Record HTTPRequest := mkHTTPRequest {
  req_Method : string;
  req_URL : string;
  req_Header : gmap string string;
  req_Body : string;
  req_Timeout : Duration
}.

Definition req_Header_Set (k v : string) (req : HTTPRequest) : HTTPRequest :=
  {| req_Method := req_Method req; req_URL := req_URL req;
     req_Header := <[k := v]> (req_Header req); req_Body := req_Body req;
     req_Timeout := req_Timeout req |}.

(** The response as read by [SendCheckpoints]: the status code and what
    [ioutil.ReadAll(resp.Body)] returns, its error dropped ([None] is a
    nil slice). *)
Record HTTPResponse := mkHTTPResponse {
  resp_StatusCode : Z;
  resp_Body : option string
}.

(** The fields and methods of [AppService] that the dispatcher uses. *)
Record AppService := mkAppService {
  HasWebsocket : bool;
  MessageSendCheckpointEndpoint : string;
  Registration_AppToken : string
}.

(** What the dispatcher puts on the network. *)
Inductive NetEvent :=
| WebsocketSend (req : WebsocketRequest)
| HTTPDo (req : HTTPRequest).

(** The outside of [SendCheckpoints]: the websocket, the JSON encoder,
    the URL check of [http.NewRequestWithContext] and the HTTP client. *)
Record Env := mkEnv {
  SendWebsocket : WebsocketRequest -> option error;
  json_Encode : CheckpointsJSON -> string + error;
  http_NewRequest_err : string -> option error;
  http_Do : HTTPRequest -> HTTPResponse + error
}.

(** [bytes.ReplaceAll(respBody, []byte("\n"), []byte("\\n"))]: every
    line feed becomes a backslash followed by the letter n. *)
Fixpoint escapeNewlines (s : string) : string :=
  match s with
  | EmptyString => EmptyString
  | String c rest =>
      if Ascii.eqb c (ascii_of_nat 10)
      then String (ascii_of_nat 92) (String "n" (escapeNewlines rest))
      else String c (escapeNewlines rest)
  end.

(** [func SendCheckpoints]: the returned error and the network traffic. *)
Definition SendCheckpoints (env : Env) (as_ : AppService)
    (checkpoints : list MessageSendCheckpoint)
    : option error * list NetEvent :=
  let checkpointsJSON := {| Checkpoints := checkpoints |} in
  if HasWebsocket as_ then
    let req := {| Command := "message_checkpoint"; Data := checkpointsJSON |} in
    (SendWebsocket env req, [WebsocketSend req])
  else if bool_decide (MessageSendCheckpointEndpoint as_ = "") then
    (None, [])
  else
    match json_Encode env checkpointsJSON with
    | inr err =>
        (Some (wrapError "failed to encode message send checkpoint JSON: " err),
         [])
    | inl body =>
        match http_NewRequest_err env (MessageSendCheckpointEndpoint as_) with
        | Some err => (Some err, [])
        | None =>
            let req := {| req_Method := "POST";
                          req_URL := MessageSendCheckpointEndpoint as_;
                          req_Header := ∅;
                          req_Body := body;
                          req_Timeout := 5 * Second |} in
            let req := req_Header_Set "Authorization"
                         ("Bearer " +:+ Registration_AppToken as_) req in
            let req := req_Header_Set "User-Agent"
                         (DefaultUserAgent +:+ " checkpoint sender") req in
            let req := req_Header_Set "Content-Type" "application/json" req in
            match http_Do env req with
            | inr err =>
                (Some (wrapError "Failed to send bridge state update: " err),
                 [HTTPDo req])
            | inl resp =>
                if (resp_StatusCode resp <? 200) || (299 <? resp_StatusCode resp)
                then
                  let respBody :=
                    match resp_Body resp with
                    | Some b => escapeNewlines b
                    | None => ""
                    end in
                  (Some (errorString
                           ("Unexpected status code "
                              +:+ pretty (resp_StatusCode resp)
                              +:+ " sending bridge state update: "
                              +:+ respBody)),
                   [HTTPDo req])
                else (None, [HTTPDo req])
            end
        end
    end.

(** [func (cp *MessageSendCheckpoint) Send]. *)
Definition Send (env : Env) (as_ : AppService) (cp : MessageSendCheckpoint)
    : option error * list NetEvent :=
  SendCheckpoints env as_ [cp].

(** Running the goroutine of a [go checkpoint.Send(as)]. *)
Definition run (env : Env) (as_ : AppService) (g : Goroutine)
    : option error * list NetEvent :=
  match g with
  | go_Send checkpoint => Send env as_ checkpoint
  end.

(** The request [SendCheckpoints] posts to the HTTP endpoint, written
    out: the three headers, the body and a timeout of 5 seconds. *)
Definition checkpointPost (as_ : AppService) (body : string) : HTTPRequest :=
  {| req_Method := "POST";
     req_URL := MessageSendCheckpointEndpoint as_;
     req_Header :=
       <["Content-Type" := "application/json"]>
         (<["User-Agent" := DefaultUserAgent +:+ " checkpoint sender"]>
            (<["Authorization" := "Bearer " +:+ Registration_AppToken as_]> ∅));
     req_Body := body;
     req_Timeout := 5000000000 |}.

(** The checkpoint a goroutine was started on. *)
Definition sent (g : Goroutine) : MessageSendCheckpoint :=
  match g with
  | go_Send checkpoint => checkpoint
  end.
End Checkpoints.

Arguments Event EventType : clear implicits.
Arguments MessageSendCheckpoint EventType : clear implicits.
Arguments Env EventType : clear implicits.

End Appservice.

(** * Concrete instances

    A syncer, a client, a few long polls and a small HTTP world, to run
    the embedded code on. *)

Module Examples.
Import Mautrix.

(** A syncer that counts what it handled.  It cannot process the payload
    "poison"; on a failed sync it asks for a backoff of 2 seconds, unless
    the error reads "fatal", which it hands back. *)
Record ExampleSyncer := mkExampleSyncer {
  handled : Z
}.

#[global] Instance ExampleSyncer_Syncer : Syncer ExampleSyncer := {
  ProcessResponse sy resSync since :=
    if bool_decide (Payload resSync = "poison")
    then (sy, Some (errorString "cannot process"))
    else ({| handled := handled sy + 1 |}, None);
  OnFailedSync sy resSync err :=
    if bool_decide (Error err = "fatal")
    then (sy, (0, Some err))
    else (sy, (2 * Second, None));
  GetFilterJSON sy userID := "{}"
}.

Definition bot : string := "@bot:example.org".

(** A client whose store has a filter cached and no token yet. *)
Definition client : Client InMemoryStore ExampleSyncer :=
  {| UserID := bot; SyncPresence := "online";
     Syncer_ := {| handled := 0 |};
     Store := {| Filters := {[ bot := "f1" ]}; NextBatches := ∅ |};
     syncingID := 0 |}.

(** The same client on first run: nothing cached. *)
Definition freshClient : Client InMemoryStore ExampleSyncer :=
  {| UserID := bot; SyncPresence := "online";
     Syncer_ := {| handled := 0 |};
     Store := {| Filters := ∅; NextBatches := ∅ |};
     syncingID := 0 |}.

Definition s1 : RespSync := {| NextBatch := "s1"; Payload := "hello" |}.
Definition s2 : RespSync := {| NextBatch := "s2"; Payload := "poison" |}.
Definition s3 : RespSync := {| NextBatch := "s3"; Payload := "world" |}.

Definition ok (r : RespSync) : FetchStep :=
  {| meanwhile := []; result := FetchOK r |}.
Definition broken : FetchStep :=
  {| meanwhile := []; result := FetchErr None (errorString "connection reset") |}.
Definition brokenForGood : FetchStep :=
  {| meanwhile := []; result := FetchErr None (errorString "fatal") |}.
(** A long poll during which [StopSync] and a new [Sync] were called. *)
Definition superseded (r : RespSync) : FetchStep :=
  {| meanwhile := [OtherStopSync; OtherSync]; result := FetchOK r |}.

(** Failed long polls during which [StopSync] and a new [Sync] were
    called. *)
Definition supersededBroken : FetchStep :=
  {| meanwhile := [OtherStopSync; OtherSync];
     result := FetchErr None (errorString "connection reset") |}.
Definition supersededBrokenForGood : FetchStep :=
  {| meanwhile := [OtherStopSync; OtherSync];
     result := FetchErr None (errorString "fatal") |}.

Definition filterCreated : string -> RespCreateFilter + error :=
  fun _ => inl {| FilterID := "f9" |}.
Definition filterRefused : string -> RespCreateFilter + error :=
  fun _ => inr (errorString "M_FORBIDDEN").

(** A small HTTP world for [MakeRequest]: bodies are JSON text already,
    every URL is well formed and is its own path, and the server answers
    502 with an HTML page, as a reverse proxy does. *)
Definition marshal (b : string) : string + error := inl b.
Definition wellFormed (method url : string) (body : option string)
    : Request + error :=
  inl {| Method := method; URL := url; URL_Path := url; Header := ∅;
         Body := body |}.
Definition badGateway : string := "<html>502 Bad Gateway</html>".
Definition proxy (req : Request) : Response + error :=
  inl {| StatusCode := 502; ReadAll_contents := badGateway;
         ReadAll_err := None |}.

(** A decoder for [RespError] that reads the error code of a body that
    starts with the [errcode] key, and nothing from any other body. *)
Definition quote : ascii := ascii_of_nat 34.
Definition errcodeKey : string :=
  "{" +:+ String quote "errcode" +:+ String quote ":" +:+ String quote "".
Fixpoint dropPrefix (p s : string) : option string :=
  match p, s with
  | EmptyString, _ => Some s
  | String a p, String b s => if Ascii.eqb a b then dropPrefix p s else None
  | String _ _, EmptyString => None
  end.
Fixpoint upToQuote (s : string) : string :=
  match s with
  | EmptyString => EmptyString
  | String a s => if Ascii.eqb a quote then EmptyString
                  else String a (upToQuote s)
  end.
Definition decodeRespError (contents : string) : RespError :=
  match dropPrefix errcodeKey contents with
  | Some rest => {| ErrCode := upToQuote rest; Err := "" |}
  | None => {| ErrCode := ""; Err := "" |}
  end.
Definition decodeAny (contents : string) (into : string) : option error := None.

(** An event of kind message, with event kinds named by their strings. *)
Definition message : Appservice.Event string :=
  {| Appservice.ID := "$e1"; Appservice.RoomID := "!r1";
     Appservice.Type_ := "m.room.message";
     Appservice.Content_ := {| Appservice.AsMessage :=
                                 {| Appservice.MsgType := "m.text" |} |} |}.

End Examples.

(** * Further definitions for the sync loop *)

(** Modelled from the spec: the Sync State Store holds two separate pieces
    of state per account, the continuation token and the filter
    identifier.  Saving one of them leaves the other as it was, for every
    account. *)
Class SeparateStorer (St : Type) `{Mautrix.Storer St} : Prop := {
  save_next_batch_keeps_filter_id :
    forall (s : St) (userID nextBatch userID' : string),
      Mautrix.LoadFilterID (Mautrix.SaveNextBatch s userID nextBatch) userID'
      = Mautrix.LoadFilterID s userID';
  save_filter_id_keeps_next_batch :
    forall (s : St) (userID filterID userID' : string),
      Mautrix.LoadNextBatch (Mautrix.SaveFilterID s userID filterID) userID'
      = Mautrix.LoadNextBatch s userID'
}.

(** The arguments of the sync requests of a trace, in order: timeout,
    since, filter ID, full state, presence. *)
Definition syncRequests (tr : list Mautrix.Event)
    : list (Z * string * string * bool * string) :=
  omap (fun e => match e with
                 | Mautrix.EvSyncRequest timeout since filterID fullState
                     setPresence =>
                     Some (timeout, since, filterID, fullState, setPresence)
                 | _ => None
                 end) tr.

(** Whether a string has no slash in it. *)
Fixpoint noSlash (s : string) : bool :=
  match s with
  | EmptyString => true
  | String c s => negb (Ascii.eqb c (ascii_of_nat 47)) && noSlash s
  end.

(** Whether a string has a line feed in it. *)
Fixpoint hasLineFeed (s : string) : bool :=
  match s with
  | EmptyString => false
  | String c s => Ascii.eqb c (ascii_of_nat 10) || hasLineFeed s
  end.

(** Whether an event is part of the creation of a filter. *)
Definition filterCreation (e : Mautrix.Event) : bool :=
  match e with
  | Mautrix.EvGetFilterJSON _ | Mautrix.EvCreateFilter _
  | Mautrix.EvSaveFilterID _ _ => true
  | _ => false
  end.

(** The last element of a list of tokens, or a given token when the list
    is empty. *)
Definition latest (d : string) (l : list string) : string :=
  default d (last l).

(** What [Sync] asks of every sync request of a cycle that uses the filter
    [fid] on a client with presence [presence]. *)
Definition cycleRequest (fid presence : string)
    (q : Z * string * string * bool * string) : Prop :=
  let '(timeout, since, filterID, fullState, setPresence) := q in
  timeout = 30000 /\ filterID = fid /\ fullState = false
  /\ setPresence = presence.

(** * client.go: URLs, transaction IDs and the request wrappers *)

Module Requests.

(** A [url.URL], as far as the file reads and writes it: the path in its
    two forms and the raw query; scheme, host and the rest are one
    component that the file only carries along. *)
Record URL := mkURL {
  Base : string;
  Path : string;
  RawPath : string;
  RawQuery : string
}.

Definition with_paths (path rawPath : string) (u : URL) : URL :=
  {| Base := Base u; Path := path; RawPath := rawPath;
     RawQuery := RawQuery u |}.
Definition with_RawQuery (q : string) (u : URL) : URL :=
  {| Base := Base u; Path := Path u; RawPath := RawPath u; RawQuery := q |}.

(** [url.Values]: a map from keys to lists of values; [Set] replaces the
    values of a key by one value. *)
Abbreviation Values := (gmap string (list string)).
Definition Values_Set (k v : string) (q : Values) : Values := <[k := [v]]> q.

(** [int32] arithmetic wraps around. *)
Definition int32 (z : Z) : Z := (z + 2 ^ 31) mod 2 ^ 32 - 2 ^ 31.

(** The fields of [Client] that this part of the file uses. *)
Record Client := mkClient {
  HomeserverURL : URL;
  Prefix : list string;
  UserID : string;
  AccessToken : string;
  AppServiceUserID : string;
  txnID : Z                  (* int32 *)
}.

Definition with_txnID (n : Z) (cli : Client) : Client :=
  {| HomeserverURL := HomeserverURL cli; Prefix := Prefix cli;
     UserID := UserID cli; AccessToken := AccessToken cli;
     AppServiceUserID := AppServiceUserID cli; txnID := n |}.
Definition with_credentials (userID accessToken : string) (cli : Client)
    : Client :=
  {| HomeserverURL := HomeserverURL cli; Prefix := Prefix cli;
     UserID := userID; AccessToken := accessToken;
     AppServiceUserID := AppServiceUserID cli; txnID := txnID cli |}.

(** [func (cli *Client) SetCredentials] and [ClearCredentials]. *)
Definition SetCredentials (userID accessToken : string) (cli : Client) : Client :=
  with_credentials userID accessToken cli.
Definition ClearCredentials (cli : Client) : Client :=
  with_credentials "" "" cli.

(** [func (cli *Client) TxnID]; [now] is [time.Now().UnixNano()]. *)
Definition TxnID (now : Z) (cli : Client) : string * Client :=
  let txnID := int32 (txnID cli + 1) in
  ("go" +:+ pretty now +:+ pretty txnID, with_txnID txnID cli).

Section URLs.
(** The calls into [net/url] and [path]; the code drops the errors of
    [url.Parse], whose inputs here are texts of URLs. *)
Variable URL_String : URL -> string.
Variable url_Parse : string -> URL.
Variable url_PathEscape : string -> string.
Variable path_Join : list string -> string.
Variable url_ParseQuery : string -> Values.
Variable Values_Encode : Values -> string.

(** [u.Query()] parses [u.RawQuery]. *)
Definition URL_Query (u : URL) : Values := url_ParseQuery (RawQuery u).

(** The [for i, part := range urlPath] loop of [BuildBaseURL]: both
    slices are written at index [i+1]. *)
Definition fillParts (urlPath : list string) (parts rawParts : list string)
    : list string * list string :=
  foldl (fun '(parts, rawParts) '(i, part) =>
           (<[S i := part]> parts, <[S i := url_PathEscape part]> rawParts))
        (parts, rawParts) (imap pair urlPath).

(** [func (cli *Client) BuildBaseURL], before the final [hsURL.String()]. *)
Definition builtBaseURL (cli : Client) (urlPath : list string) : URL :=
  let hsURL := url_Parse (URL_String (HomeserverURL cli)) in
  let rawParts := replicate (length urlPath + 1) "" in
  let rawParts := <[0%nat := RawPath hsURL]> rawParts in
  let parts := replicate (length urlPath + 1) "" in
  let parts := <[0%nat := Path hsURL]> parts in
  let '(parts, rawParts) := fillParts urlPath parts rawParts in
  let hsURL := with_paths (path_Join parts) (path_Join rawParts) hsURL in
  let query := URL_Query hsURL in
  let query :=
    if bool_decide (AppServiceUserID cli <> "")
    then Values_Set "user_id" (AppServiceUserID cli) query
    else query in
  with_RawQuery (Values_Encode query) hsURL.

Definition BuildBaseURL (cli : Client) (urlPath : list string) : string :=
  URL_String (builtBaseURL cli urlPath).

(** [func (cli *Client) BuildURL]. *)
Definition BuildURL (cli : Client) (urlPath : list string) : string :=
  BuildBaseURL cli (Prefix cli ++ urlPath).

(** [func (cli *Client) BuildURLWithQuery], before the final
    [u.String()].  Go ranges over the map in no fixed order. *)
Definition builtURLWithQuery (cli : Client) (urlPath : list string)
    (urlQuery : gmap string string) : URL :=
  let u := url_Parse (BuildURL cli urlPath) in
  let q := URL_Query u in
  let q := map_fold (fun k v q => Values_Set k v q) q urlQuery in
  with_RawQuery (Values_Encode q) u.

Definition BuildURLWithQuery (cli : Client) (urlPath : list string)
    (urlQuery : gmap string string) : string :=
  URL_String (builtURLWithQuery cli urlPath urlQuery).

(** *** The wrappers around [MakeRequest] *)

(** Values passed as [interface{}]: request bodies and decoded
    responses. *)
Variable Any : Type.

(** A call of [cli.MakeRequest]: its method, URL and request body, and
    whether it was given a target to decode the response into. *)
Record Call := mkCall {
  call_method : string;
  call_url : string;
  call_reqBody : option Any;
  call_resBody : bool
}.

(** What a call of [MakeRequest] leaves behind: the bytes and the error it
    returns, and what is in the target afterwards ([None] is nil: no
    target, or nothing decoded into it). *)
Record Answer := mkAnswer {
  ans_bytes : option string;
  ans_err : option error;
  ans_resp : option Any
}.

(** The homeserver, seen through [MakeRequest]. *)
Variable respond : Call -> Answer.

(** Computations on the client that record their calls of [MakeRequest]
    and may panic: [None] is a panic, with the state and the calls up to
    it. *)
Definition R (A : Type) : Type := Client -> option A * Client * list Call.

#[global] Instance R_ret : MRet R := fun A a cli => (Some a, cli, []).
#[global] Instance R_bind : MBind R := fun A B f m cli =>
  let '(a, cli1, t1) := m cli in
  match a with
  | None => (None, cli1, t1)
  | Some a => let '(b, cli2, t2) := f a cli1 in (b, cli2, t1 ++ t2)
  end.

Definition panic {A} : R A := fun cli => (None, cli, []).
Definition self : R Client := fun cli => (Some cli, cli, []).
Definition MakeRequest (method url : string) (reqBody : option Any)
    (resBody : bool) : R Answer := fun cli =>
  let call := {| call_method := method; call_url := url;
                 call_reqBody := reqBody; call_resBody := resBody |} in
  (Some (respond call), cli, [call]).
Definition cli_TxnID (now : Z) : R string := fun cli =>
  let '(id, cli) := TxnID now cli in (Some id, cli, []).

(** [extra[0]]: an index out of range panics. *)
Definition index0 {A} (l : list A) : R A :=
  match l with
  | x :: _ => mret x
  | [] => panic
  end.

(** The [event] types are outside the file: an event type has a name. *)
Variable EventType : Type.
Variable EventType_String : EventType -> string.
Variables EventMessage EventReaction : EventType.

(** [type ReqSendEvent struct]. *)
Record ReqSendEvent := mkReqSendEvent {
  Timestamp : Z;             (* int64 *)
  TransactionID : string;
  ParentID : string;
  RelType : string
}.
Definition ReqSendEvent_zero : ReqSendEvent :=
  {| Timestamp := 0; TransactionID := ""; ParentID := ""; RelType := "" |}.

Definition len (s : string) : Z := Z.of_nat (String.length s).

(** [func (cli *Client) SendMessageEvent]: the returned [resp] and
    [err]. *)
Definition SendMessageEvent (now : Z) (roomID : string) (eventType : EventType)
    (contentJSON : Any) (extra : list ReqSendEvent)
    : R (option Any * option error) :=
  let req := match extra with
             | e :: _ => e
             | [] => ReqSendEvent_zero
             end in
  txnID ← (if 0 <? len (TransactionID req) then mret (TransactionID req)
           else cli_TxnID now);
  let queryParams : gmap string string :=
    if 0 <? Timestamp req then {[ "ts" := pretty (Timestamp req) ]} else ∅ in
  let urlData :=
    ["rooms"; roomID; "send"; EventType_String eventType; txnID] in
  extra0 ← index0 extra;
  let urlData :=
    if 0 <? len (ParentID extra0)
    then ["rooms"; roomID; "send_relation"; ParentID req; RelType req;
          EventType_String eventType; txnID]
    else urlData in
  cli ← self;
  let urlPath := BuildURLWithQuery cli urlData queryParams in
  a ← MakeRequest "PUT" urlPath (Some contentJSON) true;
  mret (ans_resp a, ans_err a).

(** The message contents the [Send...] helpers build; the [Content] and
    [RelatesTo] structs and the message types are declared outside the
    file. *)
Record RelatesTo := mkRelatesTo {
  rel_EventID : string;
  rel_Type : string;
  rel_Key : string
}.
Record Content := mkContent {
  MsgType : string;
  Body : string;
  content_URL : string;
  content_RelatesTo : option RelatesTo
}.
Variable box_Content : Content -> Any.
Variables MsgText MsgImage MsgVideo MsgNotice RelAnnotation : string.

(** [SendText], [SendImage], [SendVideo], [SendNotice], [SendReaction]:
    each calls [SendMessageEvent] with no [extra]. *)
Definition SendText (now : Z) (roomID text : string) :=
  SendMessageEvent now roomID EventMessage
    (box_Content {| MsgType := MsgText; Body := text; content_URL := "";
                    content_RelatesTo := None |}) [].
Definition SendImage (now : Z) (roomID body url : string) :=
  SendMessageEvent now roomID EventMessage
    (box_Content {| MsgType := MsgImage; Body := body; content_URL := url;
                    content_RelatesTo := None |}) [].
Definition SendVideo (now : Z) (roomID body url : string) :=
  SendMessageEvent now roomID EventMessage
    (box_Content {| MsgType := MsgVideo; Body := body; content_URL := url;
                    content_RelatesTo := None |}) [].
Definition SendNotice (now : Z) (roomID text : string) :=
  SendMessageEvent now roomID EventMessage
    (box_Content {| MsgType := MsgNotice; Body := text; content_URL := "";
                    content_RelatesTo := None |}) [].
Definition SendReaction (now : Z) (roomID eventID reaction : string) :=
  SendMessageEvent now roomID EventReaction
    (box_Content {| MsgType := ""; Body := ""; content_URL := "";
                    content_RelatesTo :=
                      Some {| rel_EventID := eventID; rel_Type := RelAnnotation;
                              rel_Key := reaction |} |}) [].

(** [ReqRedact] is declared outside the file; of its fields the file
    reads [TxnID]. *)
Record ReqRedact := mkReqRedact {
  Reason : string;
  redact_TxnID : string
}.
Variable box_ReqRedact : ReqRedact -> Any.

(** [func (cli *Client) RedactEvent]. *)
Definition RedactEvent (now : Z) (roomID eventID : string)
    (extra : list ReqRedact) : R (option Any * option error) :=
  let req := match extra with
             | e :: _ => e
             | [] => {| Reason := ""; redact_TxnID := "" |}
             end in
  txnID ← (if 0 <? len (redact_TxnID req) then mret (redact_TxnID req)
           else cli_TxnID now);
  cli ← self;
  let urlPath := BuildURL cli ["rooms"; roomID; "redact"; eventID; txnID] in
  a ← MakeRequest "PUT" urlPath (Some (box_ReqRedact req)) true;
  mret (ans_resp a, ans_err a).

(** [func (cli *Client) SyncRequest]: the query it builds, then the
    call. *)
Definition syncQuery (timeout : Z) (since filterID : string)
    (fullState : bool) (setPresence : string) : gmap string string :=
  let query : gmap string string := {[ "timeout" := pretty timeout ]} in
  let query := if bool_decide (since <> "")
               then <["since" := since]> query else query in
  let query := if bool_decide (filterID <> "")
               then <["filter" := filterID]> query else query in
  let query := if bool_decide (setPresence <> "")
               then <["set_presence" := setPresence]> query else query in
  if fullState then <["full_state" := "true"]> query else query.

Definition SyncRequest (timeout : Z) (since filterID : string)
    (fullState : bool) (setPresence : string)
    : R (option Any * option error) :=
  let query := syncQuery timeout since filterID fullState setPresence in
  cli ← self;
  let urlPath := BuildURLWithQuery cli ["sync"] query in
  a ← MakeRequest "GET" urlPath None true;
  mret (ans_resp a, ans_err a).

(** [func (cli *Client) register].  The request, the decoded responses
    and [json.Unmarshal] into each of them are outside the file; a
    decoding gives what is in the target afterwards and the error. *)
Variables RespRegister RespUserInteractive : Type.
Variable json_Unmarshal_RespRegister :
  option string -> option RespRegister * option error.
Variable json_Unmarshal_RespUserInteractive :
  option string -> option RespUserInteractive * option error.

Definition register (u : string) (req : Any)
    : R (option RespRegister * option RespUserInteractive * option error) :=
  a ← MakeRequest "POST" u (Some req) false;
  let bodyBytes := ans_bytes a in
  match ans_err a with
  | Some err =>
      match err with
      | httpError httpErr =>
          if Code httpErr =? 401 then
            let '(uiaResp, err) :=
              json_Unmarshal_RespUserInteractive bodyBytes in
            mret (None, uiaResp, err)
          else mret (None, None, Some err)
      | _ => mret (None, None, Some err)       (* network error *)
      end
  | None =>
      let '(resp, err) := json_Unmarshal_RespRegister bodyBytes in
      mret (resp, None, err)
  end.

(** [type ReqRegister]: the account data, which the file passes on, and
    the [Auth] field, which [RegisterDummy] writes. *)
Record ReqRegister := mkReqRegister {
  Account : string;
  Auth : option (string * string)    (* struct { Type, Session } *)
}.
Variable box_ReqRegister : ReqRegister -> Any.

(** [func (cli *Client) Register] and [RegisterGuest]. *)
Definition Register (req : ReqRegister) :=
  cli ← self;
  let u := BuildURL cli ["register"] in
  register u (box_ReqRegister req).
Definition RegisterGuest (req : ReqRegister) :=
  cli ← self;
  let u := BuildURLWithQuery cli ["register"] {[ "kind" := "guest" ]} in
  register u (box_ReqRegister req).

Variable HasSingleStageFlow : RespUserInteractive -> string -> bool.
Variable Session : RespUserInteractive -> string.

(** [func (cli *Client) RegisterDummy]: the returned response and error,
    and the request as the call leaves it (it is passed by pointer). *)
Definition RegisterDummy (req : ReqRegister)
    : R (option RespRegister * option error * ReqRegister) :=
  '(res, uia, err) ← Register req;
  if bool_decide (err <> None /\ uia = None :> option RespUserInteractive)
  then mret (None, err, req)
  else
    '(res, err, req) ←
      match uia with
      | Some u =>
          if HasSingleStageFlow u "m.login.dummy" then
            let req := {| Account := Account req;
                          Auth := Some ("m.login.dummy", Session u) |} in
            '(res, _, err) ← Register req;
            mret (res, err, req)
          else mret (res, None, req)
      | None => mret (res, None, req)
      end;
    match err with
    | Some err => mret (None, Some err, req)
    | None =>
        match res with
        | None =>
            mret (None,
                  Some (errorString
                    "registration failed: does this server support m.login.dummy? "),
                  req)
        | Some res => mret (Some res, None, req)
        end
    end.

(** *** Media: [Upload], [Download] and their callers *)

(** An [io.Reader]: the bytes it yields, and the error that ends the
    reading if it is not the end of the data. *)
Record Reader := mkReader {
  content : string;
  failure : option error
}.
Definition bytes_NewReader (data : string) : Reader :=
  {| content := data; failure := None |}.
Definition ioutil_ReadAll (r : Reader) : string * option error :=
  (content r, failure r).

Record Request := mkRequest {
  req_Method : string;
  req_URL : string;
  req_Header : gmap string string;
  req_Body : Reader;
  req_ContentLength : Z
}.
Definition req_Header_Set (k v : string) (req : Request) : Request :=
  {| req_Method := req_Method req; req_URL := req_URL req;
     req_Header := <[k := v]> (req_Header req); req_Body := req_Body req;
     req_ContentLength := req_ContentLength req |}.
Definition with_ContentLength (n : Z) (req : Request) : Request :=
  {| req_Method := req_Method req; req_URL := req_URL req;
     req_Header := req_Header req; req_Body := req_Body req;
     req_ContentLength := n |}.

Record Response := mkResponse {
  StatusCode : Z;
  resp_Header : gmap string string;
  resp_ContentLength : Z;
  resp_Body : Reader
}.
(** [res.Header.Get(key)]: the empty string for a missing header. *)
Definition Header_Get (h : gmap string string) (key : string) : string :=
  default "" (h !! key).

(** What goes out through [cli.Client]. *)
Inductive HTTPCall :=
| DoCall (req : Request)
| GetCall (url : string).

Variable http_NewRequest : string -> string -> Reader -> Request + error.
Variable Client_Do : Request -> Response + error.
Variable Client_Get : string -> Response + error.
Variable RespMediaUpload : Type.
(** [json.NewDecoder(res.Body).Decode(&m)]. *)
Variable json_Decode_RespMediaUpload : Reader -> RespMediaUpload + error.

(** [func (cli *Client) Upload]; the debug line of [LogRequest] is left
    out. *)
Definition Upload (cli : Client) (content : Reader) (contentType : string)
    (contentLength : Z)
    : (option RespMediaUpload * option error) * list HTTPCall :=
  match http_NewRequest "POST"
          (BuildBaseURL cli ["_matrix"; "media"; "r0"; "upload"]) content with
  | inr err => ((None, Some err), [])
  | inl req =>
      let req := req_Header_Set "Content-Type" contentType req in
      let req := req_Header_Set "Authorization"
                   ("Bearer " +:+ AccessToken cli) req in
      let req := with_ContentLength contentLength req in
      match Client_Do req with
      | inr err => ((None, Some err), [DoCall req])
      | inl res =>
          if negb (StatusCode res =? 200) then
            let '(contents, err) := ioutil_ReadAll (resp_Body res) in
            match err with
            | Some err =>
                ((None,
                  Some (httpError
                    {| Message :=
                         "Upload request failed - Failed to read response body: "
                         +:+ Error err;
                       Code := StatusCode res;
                       WrappedError := None; RespError_ := None |})),
                 [DoCall req])
            | None =>
                ((None,
                  Some (httpError
                    {| Message := "Upload request failed: " +:+ contents;
                       Code := StatusCode res;
                       WrappedError := None; RespError_ := None |})),
                 [DoCall req])
            end
          else
            match json_Decode_RespMediaUpload (resp_Body res) with
            | inr err => ((None, Some err), [DoCall req])
            | inl m => ((Some m, None), [DoCall req])
            end
      end
  end.

(** [func (cli *Client) UploadBytes]. *)
Definition UploadBytes (cli : Client) (data : string) (contentType : string) :=
  Upload cli (bytes_NewReader data) contentType (len data).

(** [func (cli *Client) UploadLink]. *)
Definition UploadLink (cli : Client) (link : string)
    : (option RespMediaUpload * option error) * list HTTPCall :=
  match Client_Get link with
  | inr err => ((None, Some err), [GetCall link])
  | inl res =>
      let '(r, calls) :=
        Upload cli (resp_Body res) (Header_Get (resp_Header res) "Content-Type")
          (resp_ContentLength res) in
      (r, GetCall link :: calls)
  end.

(** [strings.HasPrefix], [s[n:]] and [strings.Split] with a separator of
    one byte. *)
Fixpoint HasPrefix (s prefix : string) : bool :=
  match prefix, s with
  | EmptyString, _ => true
  | String a prefix, String b s => Ascii.eqb a b && HasPrefix s prefix
  | String _ _, EmptyString => false
  end.
Fixpoint sliceFrom (n : nat) (s : string) : string :=
  match n, s with
  | O, _ => s
  | S n, String _ s => sliceFrom n s
  | S _, EmptyString => EmptyString
  end.
Fixpoint Split (s : string) (sep : ascii) : list string :=
  match s with
  | EmptyString => [EmptyString]
  | String c s =>
      if Ascii.eqb c sep then EmptyString :: Split s sep
      else match Split s sep with
           | part :: parts => String c part :: parts
           | [] => [String c EmptyString]
           end
  end.

Definition slash : ascii := ascii_of_nat 47.

(** [func (cli *Client) Download]: the body of the response, or an
    error. *)
Definition Download (cli : Client) (mxcURL : string)
    : (option Reader * option error) * list HTTPCall :=
  if negb (HasPrefix mxcURL "mxc://") then
    ((None, Some (errorString "invalid Matrix content URL")), [])
  else
    let parts := Split (sliceFrom (String.length "mxc://") mxcURL) slash in
    if negb (length parts =? 2)%nat then
      ((None, Some (errorString "invalid Matrix content URL")), [])
    else
      let u := BuildBaseURL cli
                 ["_matrix"; "media"; "r0"; "download";
                  default "" (parts !! 0%nat); default "" (parts !! 1%nat)] in
      match Client_Get u with
      | inr err => ((None, Some err), [GetCall u])
      | inl resp => ((Some (resp_Body resp), None), [GetCall u])
      end.

(** [func (cli *Client) DownloadBytes]. *)
Definition DownloadBytes (cli : Client) (mxcURL : string)
    : (option string * option error) * list HTTPCall :=
  match Download cli mxcURL with
  | ((_, Some err), calls) => ((None, Some err), calls)
  | ((resp, None), calls) =>
      match resp with
      | Some resp =>
          let '(bytes, err) := ioutil_ReadAll resp in
          ((Some bytes, err), calls)
      | None => ((None, None), calls)
      end
  end.
End URLs.

Arguments mkCall {Any} _ _ _ _.
Arguments call_method {Any} _.
Arguments call_url {Any} _.
Arguments call_reqBody {Any} _.
Arguments call_resBody {Any} _.
Arguments mkAnswer {Any} _ _ _.
Arguments ans_bytes {Any} _.
Arguments ans_err {Any} _.
Arguments ans_resp {Any} _.

End Requests.

(** * Concrete instances for the requests

    A toy [net/url], a homeserver that accepts every request, a media
    repository that answers every upload with 201 and every download with
    404, and a checkpoint endpoint behind a failing proxy. *)

Module RequestExamples.
Import Requests.

(** The text of a URL: base, path and, after a question mark, the query. *)
Definition URL_String (u : URL) : string :=
  Base u +:+ Path u
    +:+ (if bool_decide (RawQuery u = "") then "" else "?" +:+ RawQuery u).
(** Parsing keeps the whole text as the base. *)
Definition url_Parse (s : string) : URL :=
  {| Base := s; Path := ""; RawPath := ""; RawQuery := "" |}.
Definition url_PathEscape (s : string) : string := s.
(** Joining leaves out the empty elements and puts a slash before each of
    the others. *)
Definition path_Join (parts : list string) : string :=
  foldr (fun part acc =>
           if bool_decide (part = "") then acc else "/" +:+ part +:+ acc)
        "" parts.
Definition url_ParseQuery (q : string) : Values := ∅.
Definition Values_Encode (q : Values) : string :=
  foldr (fun '(k, vs) acc => k +:+ "=" +:+ String.concat "," vs +:+ "&" +:+ acc)
        "" (map_to_list q).

Definition homeserver : URL :=
  {| Base := "https://matrix.example.org"; Path := ""; RawPath := "";
     RawQuery := "" |}.
Definition cli : Client :=
  {| HomeserverURL := homeserver; Prefix := ["_matrix"; "client"; "r0"];
     UserID := "@bot:example.org"; AccessToken := "secret";
     AppServiceUserID := ""; txnID := 0 |}.

(** A homeserver that accepts every request and names the same event. *)
Definition respond (call : Call string) : Answer string :=
  {| ans_bytes := Some "{}"; ans_err := None; ans_resp := Some "$e1" |}.


(** The media repository. *)
Definition newRequest (method url : string) (body : Reader)
    : Request + error :=
  inl {| req_Method := method; req_URL := url; req_Header := ∅;
         req_Body := body; req_ContentLength := 0 |}.
Definition created : Response :=
  {| StatusCode := 201; resp_Header := ∅; resp_ContentLength := 2;
     resp_Body := bytes_NewReader "{}" |}.
Definition notFound : Response :=
  {| StatusCode := 404; resp_Header := ∅; resp_ContentLength := 9;
     resp_Body := bytes_NewReader "not found" |}.
Definition decodeUpload (r : Reader) : string + error := inl (content r).

(** The checkpoint endpoint: a proxy that answers 502 with two lines. *)
Definition twoLines : string :=
  "Bad Gateway" +:+ String (ascii_of_nat 10) "try again later".
Definition bridge : Appservice.AppService :=
  {| Appservice.HasWebsocket := false;
     Appservice.MessageSendCheckpointEndpoint :=
       "https://asmux.example.org/checkpoints";
     Appservice.Registration_AppToken := "secret" |}.
Definition failingProxy : Appservice.Env string :=
  {| Appservice.SendWebsocket := fun _ => None;
     Appservice.json_Encode := fun _ => inl "{}";
     Appservice.http_NewRequest_err := fun _ => None;
     Appservice.http_Do := fun _ =>
       inl {| Appservice.resp_StatusCode := 502;
              Appservice.resp_Body := Some twoLines |} |}.

End RequestExamples.

(** * Properties of the delivery checkpoints *)

Section CheckpointProperties.
Import Appservice.
Context {EventType : Type} `{EqDecision EventType}.
Variable EventMessage : EventType.
Variable DefaultUserAgent : string.

Abbreviation New := (NewMessageSendCheckpoint EventMessage).

Lemma New_ReportedBy now (evt : Event EventType) step status :
  ReportedBy (New now evt step status) = ReportedByBridge.
Proof. unfold NewMessageSendCheckpoint. by case_decide. Qed.

Lemma New_Info now (evt : Event EventType) step status :
  Info (New now evt step status) = "".
Proof. unfold NewMessageSendCheckpoint. by case_decide. Qed.

Lemma New_Status now (evt : Event EventType) step status :
  Status (New now evt step status) = status.
Proof. unfold NewMessageSendCheckpoint. by case_decide. Qed.

Lemma New_RetryNum now (evt : Event EventType) step status :
  RetryNum (New now evt step status) = 0.
Proof. unfold NewMessageSendCheckpoint. by case_decide. Qed.

Lemma Bridge_is_not_Asmux : ReportedByBridge <> ReportedByAsmux.
Proof. discriminate. Qed.

(** C5. For every event, step and clock reading: the checkpoint that
    [SendMessageSendCheckpoint] dispatches has status SUCCESS and an
    empty [Info]; the one [SendErrorMessageSendCheckpoint] dispatches for
    an error [err] has status PERM_FAILURE when the permanent flag is set
    and WILL_RETRY otherwise, and its [Info] is [err.Error()]; and every
    checkpoint built by [NewMessageSendCheckpoint], these two included,
    is reported by BRIDGE, which is not ASMUX. *)
Theorem checkpoint_construction_rules now (evt : Event EventType) step :
  (let cp := sent (SendMessageSendCheckpoint EventMessage now evt step) in
   Status cp = StatusSuccesss /\ Info cp = ""
   /\ ReportedBy cp = ReportedByBridge /\ ReportedBy cp <> ReportedByAsmux)
  /\ (forall (err : error) (permanent : bool),
        exists cp,
          SendErrorMessageSendCheckpoint EventMessage now evt step (Some err)
            permanent = Some (go_Send cp)
          /\ Status cp = (if permanent then StatusPermFailure
                          else StatusWillRetry)
          /\ Info cp = Error err
          /\ ReportedBy cp = ReportedByBridge
          /\ ReportedBy cp <> ReportedByAsmux)
  /\ (forall status,
        ReportedBy (New now evt step status) = ReportedByBridge
        /\ ReportedBy (New now evt step status) <> ReportedByAsmux).
Proof.
  split; [|split].
  - cbn. rewrite New_Status, New_Info, New_ReportedBy.
    auto using Bridge_is_not_Asmux.
  - intros err permanent. eexists. split; [reflexivity|].
    cbn. rewrite New_Status, New_ReportedBy.
    auto using Bridge_is_not_Asmux.
  - intros status. rewrite New_ReportedBy. auto using Bridge_is_not_Asmux.
Qed.

(** C9. Every checkpoint built by [NewMessageSendCheckpoint] has
    [RetryNum] 0, whatever the event, step, status and clock reading (the
    constructor takes no attempt count), and so has the checkpoint that
    [SendMessageSendCheckpoint] or [SendErrorMessageSendCheckpoint]
    dispatches: no path of the file writes the field. *)
Theorem retry_num_is_always_zero now (evt : Event EventType) step :
  (forall status, RetryNum (New now evt step status) = 0)
  /\ RetryNum (sent (SendMessageSendCheckpoint EventMessage now evt step)) = 0
  /\ (forall (err : error) (permanent : bool),
        exists g,
          SendErrorMessageSendCheckpoint EventMessage now evt step (Some err)
            permanent = Some g
          /\ RetryNum (sent g) = 0).
Proof.
  split; [|split].
  - intros status. apply New_RetryNum.
  - cbn. apply New_RetryNum.
  - intros err permanent. eexists. split; [reflexivity|].
    cbn. apply New_RetryNum.
Qed.

(** The dispatcher puts at most one message on the network. *)
Lemma SendCheckpoints_at_most_one (env : Env EventType) (as_ : AppService)
    (cps : list (MessageSendCheckpoint EventType)) :
  (length (snd (SendCheckpoints DefaultUserAgent env as_ cps)) <= 1)%nat.
Proof.
  unfold SendCheckpoints.
  repeat (case_match; cbn; try lia).
Qed.

(** C6. [SendCheckpoints] tries its sinks in a fixed order.  With a
    websocket it sends the batch as one [message_checkpoint] command and
    returns what that send returned, and nothing else goes out.  With no
    websocket and an empty endpoint it returns nil and nothing goes out,
    whatever the batch.  With no websocket and an endpoint, once the
    batch is encoded as JSON and the request is built, exactly one POST
    goes out, to the endpoint, with the bearer token, the encoded batch
    as body and a timeout of 5 seconds; the call returns an error when
    the transport fails and when the status is outside 200..299, and nil
    otherwise.  A batch that does not encode and an endpoint that is not
    a URL give an error and nothing goes out.  In no case does more than
    one message go out. *)
Theorem dispatch_order_and_no_retry (env : Env EventType) (as_ : AppService)
    (cps : list (MessageSendCheckpoint EventType)) :
  let out := SendCheckpoints DefaultUserAgent env as_ cps in
  let frame := {| Command := "message_checkpoint";
                  Data := {| Checkpoints := cps |} |} in
  (HasWebsocket as_ = true ->
     out = (SendWebsocket env frame, [WebsocketSend frame]))
  /\ (HasWebsocket as_ = false -> MessageSendCheckpointEndpoint as_ = "" ->
       out = (None, []))
  /\ (HasWebsocket as_ = false -> MessageSendCheckpointEndpoint as_ <> "" ->
       match json_Encode env {| Checkpoints := cps |} with
       | inr err => exists e, out = (Some e, [])
       | inl body =>
           match http_NewRequest_err env (MessageSendCheckpointEndpoint as_) with
           | Some err => out = (Some err, [])
           | None =>
               let req := checkpointPost DefaultUserAgent as_ body in
               snd out = [HTTPDo req]
               /\ match http_Do env req with
                  | inr err => exists e, fst out = Some e
                  | inl resp =>
                      if bool_decide (200 <= resp_StatusCode resp <= 299)
                      then fst out = None
                      else exists e, fst out = Some e
                  end
           end
       end)
  /\ (length (snd out) <= 1)%nat.
Proof.
  cbn zeta. split; [|split; [|split]].
  - intros Hws. unfold SendCheckpoints. by rewrite Hws.
  - intros Hws Hend. unfold SendCheckpoints. rewrite Hws, Hend. done.
  - intros Hws Hend. unfold SendCheckpoints.
    rewrite Hws. rewrite bool_decide_eq_false_2 by done.
    destruct (json_Encode env _) as [body|err]; [|by eexists].
    destruct (http_NewRequest_err env _) as [err|]; [done|].
    change (req_Header_Set _ _ _) with (checkpointPost DefaultUserAgent as_ body).
    destruct (http_Do env (checkpointPost DefaultUserAgent as_ body))
      as [resp|err] eqn:Hdo.
    + destruct (resp_StatusCode resp <? 200) eqn:Hlo;
        destruct (299 <? resp_StatusCode resp) eqn:Hhi; cbn;
        (split; [done|]); case_bool_decide; eauto; lia.
    + cbn. eauto.
  - apply SendCheckpoints_at_most_one.
Qed.
End CheckpointProperties.

(** * Properties of [MakeRequest] *)

Lemma append_assoc (a b c : string) : (a +:+ b) +:+ c = a +:+ b +:+ c.
Proof.
  induction a as [|x a IH]; [done|].
  change (String x ((a +:+ b) +:+ c) = String x (a +:+ b +:+ c)).
  by f_equal.
Qed.

Lemma append_empty_r (a : string) : a +:+ "" = a.
Proof.
  induction a as [|x a IH]; [done|].
  change (String x (a +:+ "") = String x a). by rewrite IH.
Qed.

Lemma contains_suffix (pre s : string) : contains (pre +:+ s) s.
Proof. exists pre, "". by rewrite append_empty_r. Qed.

Lemma contains_append (a t b s : string) :
  contains t s -> contains (a +:+ t +:+ b) s.
Proof.
  intros (pre & post & ->). exists (a +:+ pre), (post +:+ b).
  by rewrite !append_assoc.
Qed.

Section MakeRequestProperties.
Import Mautrix.
Variable Any : Type.
Variable json_Marshal : Any -> string + error.
Variable http_NewRequest : string -> string -> option string -> Request + error.
Variable Client_Do : Request -> Response + error.
Variable json_Unmarshal_RespError : string -> RespError.
Variable json_Unmarshal : string -> Any -> option error.
Variables (UserAgent AccessToken : string).

Abbreviation MakeRequest' :=
  (MakeRequest Any json_Marshal http_NewRequest Client_Do
     json_Unmarshal_RespError json_Unmarshal UserAgent AccessToken).

Lemma not2xx_spec (status : Z) :
  not2xx status = true <-> ~ (200 <= status <= 299).
Proof.
  unfold not2xx. rewrite negb_true_iff, Z.eqb_neq.
  split.
  - intros Hq Hr. apply Hq.
    symmetry. apply (Z.quot_unique status 100 2 (status - 200)); lia.
  - intros Hr Hq. apply Hr.
    pose proof (Z.quot_rem' status 100) as Hd. rewrite Hq in Hd.
    assert (0 <= status) as Hs.
    { destruct (Z.le_gt_cases 0 status) as [|Hneg]; [done|].
      pose proof (Z.quot_opp_l status 100 ltac:(lia)) as Ho.
      pose proof (Z.quot_pos (- status) 100 ltac:(lia) ltac:(lia)). lia. }
    pose proof (Z.rem_bound_pos status 100 Hs ltac:(lia)). lia.
Qed.

Lemma setHeaders_URL_Path (req : Request) (logBody : string) :
  URL_Path (setHeaders UserAgent AccessToken req logBody) = URL_Path req.
Proof. unfold setHeaders. by case_match. Qed.

(** C7. Let [MakeRequest] get a response that is not 2xx, with bytes
    [contents] as its body.  When [contents] does not decode into a
    [RespError] with a non-empty error code, the call returns [contents]
    and an [HTTPError] that carries the status code, wraps nothing, and
    whose message is "Failed to <method> JSON to <path>: " followed by
    [contents] verbatim, so that the message, and the text of the error,
    contain the body.  When it does decode with a non-empty code, the
    [HTTPError] wraps the decoded [RespError] as its cause. *)
Theorem unstructured_error_keeps_body (method httpURL : string)
    (reqBody resBody : option Any) (req : Request) (logBody : string)
    (res : Response) :
  newRequest Any json_Marshal http_NewRequest method httpURL reqBody
    = inl (req, logBody) ->
  Client_Do (setHeaders UserAgent AccessToken req logBody) = inl res ->
  ~ (200 <= StatusCode res <= 299) ->
  let contents := ReadAll_contents res in
  let decoded := json_Unmarshal_RespError contents in
  exists h : HTTPError error,
    MakeRequest' method httpURL reqBody resBody
      = (Some contents, Some (httpError h))
    /\ Code h = StatusCode res
    /\ (ErrCode decoded = "" ->
          WrappedError h = None /\ RespError_ h = None
          /\ Message h = "Failed to " +:+ method +:+ " JSON to "
                           +:+ URL_Path req +:+ ": " +:+ contents
          /\ contains (Message h) contents
          /\ contains (Error (httpError h)) contents)
    /\ (ErrCode decoded <> "" ->
          WrappedError h = Some (respError decoded)
          /\ RespError_ h = Some decoded).
Proof.
  intros Hnew Hdo Hstatus contents decoded.
  apply not2xx_spec in Hstatus.
  unfold MakeRequest. rewrite Hnew. cbn zeta. rewrite Hdo, Hstatus.
  unfold errorResponse. fold contents. fold decoded.
  rewrite setHeaders_URL_Path.
  case_bool_decide as Hcode; eexists; (split; [reflexivity|]); cbn.
  - repeat split; done.
  - split; [done|]. split; [|done]. intros _.
    repeat split.
    + by rewrite !append_assoc.
    + rewrite <- append_assoc. apply contains_suffix.
    + apply contains_append.
      rewrite <- append_assoc. apply contains_suffix.
Qed.
End MakeRequestProperties.

(** * Properties of the sync loop *)

Section SyncProperties.
Import Mautrix.
Context {St Sy : Type} `{Storer St} `{Syncer Sy}.
Implicit Types (c : Client St Sy) (script : list FetchStep)
  (step : FetchStep) (id : Z) (nb fid : string).

Ltac run :=
  unfold mbind, M_bind, mret, M_ret, read, emit, getSyncingID, time_Sleep,
    SyncRequest, Syncer_OnFailedSync, Syncer_ProcessResponse,
    Store_SaveNextBatch, Store_LoadNextBatch, Store_LoadFilterID,
    Store_SaveFilterID, Syncer_GetFilterJSON, CreateFilter; cbn.

Lemma concurrently_fields calls c :
  UserID (concurrently calls c) = UserID c
  /\ SyncPresence (concurrently calls c) = SyncPresence c
  /\ Syncer_ (concurrently calls c) = Syncer_ c
  /\ Store (concurrently calls c) = Store c.
Proof.
  revert c. induction calls as [|call calls IH]; intros c; [done|].
  change (concurrently (call :: calls) c)
    with (concurrently calls (with_syncingID ((syncingID c + 1) mod 2 ^ 32) c)).
  by destruct (IH (with_syncingID ((syncingID c + 1) mod 2 ^ 32) c))
    as (-> & -> & -> & ->).
Qed.

(** An iteration, case by case. *)
Lemma syncIteration_eq step id nb fid c :
  syncIteration step id nb fid c =
  let c1 := concurrently (meanwhile step) c in
  match result step with
  | FetchErr rs err =>
      let '(sy, (d, err2)) := OnFailedSync (Syncer_ c) rs err in
      match err2 with
      | Some e2 =>
          (Return (Some e2), with_Syncer sy c1,
           [request c nb fid; EvOnFailedSync rs err])
      | None =>
          (Continue nb, with_Syncer sy c1,
           [request c nb fid; EvOnFailedSync rs err; EvSleep d])
      end
  | FetchOK r =>
      if bool_decide (syncingID c1 <> id) then (Return None, c1, [request c nb fid])
      else
        let '(sy, e) := ProcessResponse (Syncer_ c) r nb in
        (match e with
         | Some e => Return (Some e)
         | None => Continue (NextBatch r)
         end,
         with_Syncer sy
           (with_Store (SaveNextBatch (Store c) (UserID c) (NextBatch r)) c1),
         [request c nb fid; EvSaveNextBatch (UserID c) (NextBatch r);
          EvProcessResponse r nb])
  end.
Proof.
  destruct (concurrently_fields (meanwhile step) c) as (Hu & Hp & Hsy & Hst).
  unfold syncIteration. run.
  destruct (result step) as [r|rs err]; run.
  - case_bool_decide; run; [done|].
    rewrite Hsy, Hu, Hst.
    destruct (ProcessResponse (Syncer_ c) r nb) as [sy [e|]]; done.
  - rewrite Hsy.
    destruct (OnFailedSync (Syncer_ c) rs err) as [sy [d [e2|]]]; done.
Qed.

Lemma syncLoop_cons step script id nb fid c :
  syncLoop (step :: script) id nb fid c =
  let '(ctl, c1, t1) := syncIteration step id nb fid c in
  match ctl with
  | Continue nb' =>
      let '(o, c2, t2) := syncLoop script id nb' fid c1 in (o, c2, t1 ++ t2)
  | Return e => (Returned e, c1, t1)
  end.
Proof.
  cbn [syncLoop]. unfold mbind at 1, M_bind.
  destruct (syncIteration step id nb fid c) as [[[nb'|e] c1] t1]; [done|].
  cbn. by rewrite app_nil_r.
Qed.

Lemma syncLoop_nil id nb fid c :
  syncLoop [] id nb fid c = (InFlight, c, [request c nb fid]).
Proof. done. Qed.

Lemma syncIterations_cons step script id nb fid c :
  syncIterations (step :: script) id nb fid c =
  let '(ctl, c1, t1) := syncIteration step id nb fid c in
  match ctl with
  | Continue nb' =>
      let '(o, c2, t2) := syncIterations script id nb' fid c1 in
      (o, c2, t1 ++ t2)
  | Return e => (Return e, c1, t1)
  end.
Proof.
  cbn [syncIterations]. unfold mbind at 1, M_bind.
  destruct (syncIteration step id nb fid c) as [[[nb'|e] c1] t1]; [done|].
  cbn. by rewrite app_nil_r.
Qed.

(** The loop is its iterations, followed by the request that is still
    out when none of them returned. *)
Lemma syncLoop_iterations script id nb fid c :
  syncLoop script id nb fid c =
  let '(ctl, c1, t) := syncIterations script id nb fid c in
  match ctl with
  | Continue nb' => (InFlight, c1, t ++ [request c1 nb' fid])
  | Return e => (Returned e, c1, t)
  end.
Proof.
  revert nb c. induction script as [|step script IH]; intros nb c; [done|].
  rewrite syncLoop_cons, syncIterations_cons.
  destruct (syncIteration step id nb fid c) as [[[nb'|e] c1] t1]; [|done].
  rewrite IH.
  destruct (syncIterations script id nb' fid c1) as [[[nb''|e] c2] t2];
    [|done].
  by rewrite app_assoc.
Qed.

(** Iterations compose: a script in two parts runs as the first part
    followed, from where that one stands, by the second. *)
Lemma syncIterations_app script1 script2 id nb fid c :
  syncIterations (script1 ++ script2) id nb fid c =
  let '(ctl, c1, t1) := syncIterations script1 id nb fid c in
  match ctl with
  | Continue nb' =>
      let '(o, c2, t2) := syncIterations script2 id nb' fid c1 in
      (o, c2, t1 ++ t2)
  | Return e => (Return e, c1, t1)
  end.
Proof.
  revert nb c. induction script1 as [|step script1 IH]; intros nb c.
  - cbn. by destruct (syncIterations script2 id nb fid c) as [[o c2] t2].
  - rewrite <- app_comm_cons, !syncIterations_cons.
    destruct (syncIteration step id nb fid c) as [[[nb'|e] c1] t1]; [|done].
    rewrite IH.
    destruct (syncIterations script1 id nb' fid c1) as [[[nb''|e] c2] t2];
      [|done].
    destruct (syncIterations script2 id nb'' fid c2) as [[o c3] t3].
    by rewrite app_assoc.
Qed.

(** The loop on a script in two parts: the iterations of the first part,
    then the loop on the second from where they stand. *)
Lemma syncLoop_app script1 script2 id nb fid c :
  syncLoop (script1 ++ script2) id nb fid c =
  let '(ctl, c1, t1) := syncIterations script1 id nb fid c in
  match ctl with
  | Continue nb' =>
      let '(o, c2, t2) := syncLoop script2 id nb' fid c1 in (o, c2, t1 ++ t2)
  | Return e => (Returned e, c1, t1)
  end.
Proof.
  rewrite syncLoop_iterations, syncIterations_app.
  destruct (syncIterations script1 id nb fid c) as [[[nb'|e] c1] t1]; [|done].
  rewrite syncLoop_iterations.
  destruct (syncIterations script2 id nb' fid c1) as [[[nb''|e] c2] t2];
    [|done].
  by rewrite app_assoc.
Qed.

(** [Sync], case by case on the cached filter and on the homeserver's
    answer to the filter creation. *)
Lemma Sync_eq createFilter script c :
  Sync createFilter script c =
  let id := (syncingID c + 1) mod 2 ^ 32 in
  let c1 := with_syncingID id c in
  let u := UserID c in
  let nb := LoadNextBatch (Store c) u in
  let fid := LoadFilterID (Store c) u in
  if bool_decide (fid = "") then
    let filterJSON := GetFilterJSON (Syncer_ c) u in
    match createFilter filterJSON with
    | inr err =>
        (Returned (Some err), c1,
         [EvLoadNextBatch u; EvLoadFilterID u; EvGetFilterJSON u;
          EvCreateFilter filterJSON])
    | inl resFilter =>
        let '(o, c2, t) :=
          syncLoop script id nb (FilterID resFilter)
            (with_Store (SaveFilterID (Store c) u (FilterID resFilter)) c1) in
        (o, c2,
         [EvLoadNextBatch u; EvLoadFilterID u; EvGetFilterJSON u;
          EvCreateFilter filterJSON; EvSaveFilterID u (FilterID resFilter)]
         ++ t)
    end
  else
    let '(o, c2, t) := syncLoop script id nb fid c1 in
    (o, c2, [EvLoadNextBatch u; EvLoadFilterID u] ++ t).
Proof.
  unfold Sync, incrementSyncingID. run.
  case_bool_decide as Hfid; run.
  - destruct (createFilter _) as [resFilter|err]; run; [|done].
    by destruct (syncLoop _ _ _ _ _) as [[o c2] t].
  - by destruct (syncLoop _ _ _ _ _) as [[o c2] t].
Qed.

Lemma saves_app (t1 t2 : list Event) : saves (t1 ++ t2) = saves t1 ++ saves t2.
Proof. apply omap_app. Qed.
Lemma fetches_app (t1 t2 : list Event) :
  fetches (t1 ++ t2) = fetches t1 ++ fetches t2.
Proof. apply omap_app. Qed.



(** The loop starts with a request from the token and filter it is
    entered with, and causes loop events only. *)
Lemma syncLoop_trace script id nb fid c :
  exists tl, trace (syncLoop script id nb fid c) = request c nb fid :: tl
             /\ Forall (fun e => loopEvent e = true) tl.
Proof.
  revert nb c. induction script as [|step script IH]; intros nb c.
  { exists []. by rewrite syncLoop_nil. }
  rewrite syncLoop_cons, syncIteration_eq. cbn zeta.
  destruct (result step) as [r|rs err].
  - case_bool_decide as Hgen; [by exists []|].
    destruct (ProcessResponse (Syncer_ c) r nb) as [sy [e|]].
    { eexists. split; [reflexivity|]. by repeat constructor. }
    match goal with
    | |- context [syncLoop script id ?nb' fid ?c'] =>
        destruct (IH nb' c') as (tl & Htl & Hloop);
        destruct (syncLoop script id nb' fid c') as [[o c2] t2]
    end.
    cbn in *. subst t2. eexists. split; [reflexivity|].
    by repeat constructor.
  - destruct (OnFailedSync (Syncer_ c) rs err) as [sy [d [e2|]]].
    { eexists. split; [reflexivity|]. by repeat constructor. }
    match goal with
    | |- context [syncLoop script id ?nb' fid ?c'] =>
        destruct (IH nb' c') as (tl & Htl & Hloop);
        destruct (syncLoop script id nb' fid c') as [[o c2] t2]
    end.
    cbn in *. subst t2. eexists. split; [reflexivity|].
    by repeat constructor.
Qed.



(** C3. Take any iteration of the loop, standing at token [nb], whose
    fetch fails with [err].  The iteration calls [OnFailedSync] with that
    error and leaves the store as it is.  When the handler returns an
    error, the loop, and so [Sync], returns that error and does nothing
    more.  Otherwise the iteration sleeps for the duration the handler
    returned and the next request of the loop carries the same token
    [nb]. *)
Theorem failed_fetch_is_retried_from_same_token step script id nb fid c
    rs err sy d err2 :
  result step = FetchErr rs err ->
  OnFailedSync (Syncer_ c) rs err = (sy, (d, err2)) ->
  let it := syncIteration step id nb fid c in
  let r := syncLoop (step :: script) id nb fid c in
  Store (final it) = Store c
  /\ match err2 with
     | Some e2 =>
         outcome it = Return (Some e2)
         /\ trace it = [request c nb fid; EvOnFailedSync rs err]
         /\ outcome r = Returned (Some e2)
         /\ trace r = trace it
     | None =>
         outcome it = Continue nb
         /\ trace it = [request c nb fid; EvOnFailedSync rs err; EvSleep d]
         /\ exists tl, trace r = trace it ++ request c nb fid :: tl
     end.
Proof.
  intros Hres Hhandler. cbn zeta.
  rewrite syncLoop_cons, syncIteration_eq, Hres, Hhandler. cbn zeta.
  destruct (concurrently_fields (meanwhile step) c) as (Hu & Hp & Hsy & Hst).
  destruct err2 as [e2|]; [by rewrite <- Hst|].
  split; [by rewrite <- Hst|]. split; [done|]. split; [done|].
  match goal with
  | |- context [syncLoop script id ?nb' fid ?c'] =>
      destruct (syncLoop_trace script id nb' fid c') as (tl & Htl & _);
      destruct (syncLoop script id nb' fid c') as [[o c2] t]
  end.
  unfold trace in *. cbn [snd] in *. subst t. exists tl.
  unfold request. cbn. by rewrite Hp.
Qed.



Lemma two_increments_differ (n : Z) :
  0 <= n < 2 ^ 32 -> ((n + 1) mod 2 ^ 32 + 1) mod 2 ^ 32 <> n.
Proof.
  intros Hn. change (2 ^ 32) with 4294967296 in *.
  destruct (decide (n + 1 < 4294967296)) as [Hlt|Hge].
  - rewrite (Z.mod_small (n + 1)) by lia.
    destruct (decide (n + 2 < 4294967296)) as [Hlt2|Hge2].
    + rewrite Z.mod_small by lia. lia.
    + assert (n = 4294967294) as -> by lia. done.
  - assert (n = 4294967295) as -> by lia. done.
Qed.

Lemma StopSync_eq c :
  StopSync c = (tt, with_syncingID ((syncingID c + 1) mod 2 ^ 32) c, []).
Proof. done. Qed.

(** C2 (amended). [StopSync] adds one to the generation, modulo 2^32, and does
    nothing else: no event, the store, the syncer and a request in
    flight untouched, the request still returning what it returns.  A
    cycle whose fetch returns a payload when the client's generation is
    no longer the one it captured returns nil at once: the token of the
    payload is not saved, [ProcessResponse] is not called, the store is
    unchanged.  After [StopSync] and the start of a new [Sync] during the
    long poll of a live cycle, the new cycle's captured generation is the
    client's current one and the old cycle's is not, so the old cycle
    returns in that way when its fetch returns. *)
Theorem stop_retires_the_running_cycle step script id nb fid c payload :
  result step = FetchOK payload ->
  let c1 := concurrently (meanwhile step) c in
  let it := syncIteration step id nb fid c in
  StopSync c = (tt, with_syncingID ((syncingID c + 1) mod 2 ^ 32) c, [])
  /\ (syncingID c1 <> id ->
      it = (Return None, c1, [request c nb fid])
      /\ syncLoop (step :: script) id nb fid c
         = (Returned None, c1, [request c nb fid])
      /\ saves (trace it) = [] /\ processed (trace it) = []
      /\ Store (final it) = Store c /\ Syncer_ (final it) = Syncer_ c)
  /\ (let old := outcome (incrementSyncingID c) in
      let running := final (incrementSyncingID c) in
      let stopped := final (StopSync running) in
      let new := outcome (incrementSyncingID stopped) in
      let restarted := final (incrementSyncingID stopped) in
      outcome (getSyncingID restarted) = new
      /\ old <> new
      /\ restarted = concurrently [OtherStopSync; OtherSync] running
      /\ (meanwhile step = [OtherStopSync; OtherSync] ->
          syncLoop (step :: script) old nb fid running
          = (Returned None, restarted, [request c nb fid]))).
Proof.
  intros Hres. cbn zeta.
  destruct (concurrently_fields (meanwhile step) c) as (Hu & Hp & Hsy & Hst).
  split; [apply StopSync_eq|]. split.
  - intros Hgen.
    rewrite syncLoop_cons, syncIteration_eq, Hres. cbn zeta.
    rewrite bool_decide_eq_true_2 by done. done.
  - unfold outcome, final. rewrite StopSync_eq.
    cbn [fst snd incrementSyncingID getSyncingID read with_syncingID
         syncingID].
    set (old := (syncingID c + 1) mod 2 ^ 32).
    assert (0 <= old < 2 ^ 32) as Hold by (apply Z.mod_pos_bound; lia).
    pose proof (two_increments_differ old Hold) as Hne.
    split; [done|]. split; [congruence|]. split; [done|].
    intros Hmean.
    rewrite syncLoop_cons, syncIteration_eq, Hres, Hmean. cbn zeta.
    cbn [concurrently fold_left incrementSyncingID fst snd with_syncingID
         syncingID].
    fold old. rewrite bool_decide_eq_true_2 by done. done.
Qed.

End SyncProperties.

(** * The code on concrete inputs *)

#[global] Instance InMemoryStore_durable : DurableStorer InMemoryStore.
Proof.
  split; intros s userID v; cbn; by rewrite lookup_insert_eq.
Qed.

Section Runs.
Import Mautrix Examples.

(** The scenario of the design document: a fetch returns token "s1",
    the next one fails, the handler asks for 2 seconds; the loop then
    asks again from "s1". *)
Example retry_scenario :
  Sync filterCreated [ok s1; broken] client
  = (InFlight,
     final (Sync filterCreated [ok s1; broken] client),
     [EvLoadNextBatch bot; EvLoadFilterID bot;
      EvSyncRequest 30000 "" "f1" false "online";
      EvSaveNextBatch bot "s1"; EvProcessResponse s1 "";
      EvSyncRequest 30000 "s1" "f1" false "online";
      EvOnFailedSync None (errorString "connection reset");
      EvSleep 2000000000;
      EvSyncRequest 30000 "s1" "f1" false "online"]).
Proof. by vm_compute. Qed.

Example poisoned_batch_is_not_replayed :
  let r := Sync filterCreated [ok s1; ok s2; ok s3] client in
  outcome r = Returned (Some (errorString "cannot process"))
  /\ saves (trace r) = ["s1"; "s2"]
  /\ processed (trace r) = [(s1, ""); (s2, "s1")]
  /\ fetches (trace (Sync filterCreated [ok s3] (final r))) = ["s2"; "s3"].
Proof. by vm_compute. Qed.

Example first_run_creates_filter :
  trace (Sync filterCreated [] freshClient)
  = [EvLoadNextBatch bot; EvLoadFilterID bot; EvGetFilterJSON bot;
     EvCreateFilter "{}"; EvSaveFilterID bot "f9";
     EvSyncRequest 30000 "" "f9" false "online"]
  /\ Sync filterRefused [ok s1] freshClient
     = (Returned (Some (errorString "M_FORBIDDEN")),
        with_syncingID 1 freshClient,
        [EvLoadNextBatch bot; EvLoadFilterID bot; EvGetFilterJSON bot;
         EvCreateFilter "{}"]).
Proof. by vm_compute. Qed.

Example superseded_cycle_returns_nil :
  Sync filterCreated [ok s1; superseded s3] client
  = (Returned None,
     final (Sync filterCreated [ok s1; superseded s3] client),
     [EvLoadNextBatch bot; EvLoadFilterID bot;
      EvSyncRequest 30000 "" "f1" false "online";
      EvSaveNextBatch bot "s1"; EvProcessResponse s1 "";
      EvSyncRequest 30000 "s1" "f1" false "online"])
  /\ syncingID (final (Sync filterCreated [ok s1; superseded s3] client)) = 3.
Proof. by vm_compute. Qed.

Example proxy_page_is_in_the_error :
  MakeRequest string marshal wellFormed proxy decodeRespError decodeAny
    "mautrix-go" "secret" "GET" "/_matrix/client/r0/sync" None None
  = (Some badGateway,
     Some (httpError
             {| WrappedError := None; RespError_ := None;
                Message := "Failed to GET JSON to /_matrix/client/r0/sync: "
                           +:+ badGateway;
                Code := 502 |})).
Proof. by vm_compute. Qed.

Example checkpoint_of_a_message :
  Appservice.NewMessageSendCheckpoint "m.room.message" 1700000000 message
    Appservice.StepBridge Appservice.StatusSuccesss
  = {| Appservice.cp_EventID := "$e1"; Appservice.cp_RoomID := "!r1";
       Appservice.Step := "BRIDGE"; Appservice.Timestamp := 1700000000;
       Appservice.Status := "SUCCESS";
       Appservice.cp_EventType := "m.room.message";
       Appservice.ReportedBy := "BRIDGE"; Appservice.RetryNum := 0;
       Appservice.MessageType := "m.text"; Appservice.Info := "" |}.
Proof. by vm_compute. Qed.
End Runs.

Section Counterexamples.
Import Mautrix Examples.

(** C2 as stated fails.  A cycle starts with generation 1; it applies
    "s1"; during its second long poll [StopSync] and a new [Sync] are
    called, so the client's generation is 3, and that long poll then
    returns an error.  The cycle does not exit: [OnFailedSync] is called,
    the cycle sleeps and sends a third request.  When the handler returns
    an error instead, the cycle exits with that error, not with nil. *)
Lemma superseded_cycle_with_failed_fetch_does_not_exit :
  let r := Sync filterCreated [ok s1; supersededBroken] client in
  let r' := Sync filterCreated [ok s1; supersededBrokenForGood] client in
  syncingID (final r) = 3
  /\ fetches (trace r) = [""; "s1"; "s1"]
  /\ failures (trace r) = [(None, errorString "connection reset")]
  /\ outcome r = InFlight
  /\ outcome r <> Returned None
  /\ outcome r' = Returned (Some (errorString "fatal"))
  /\ outcome r' <> Returned None.
Proof. by vm_compute. Qed.

End Counterexamples.

Section Witnesses.
Import Mautrix Examples.


(** A cycle of generation 1 whose long poll saw [StopSync] and a new
    [Sync]: it returns nil when the poll returns. *)
Lemma stop_retires_the_running_cycle_witness :
  result (superseded s3) = FetchOK s3
  /\ syncLoop [superseded s3] 1 "s1" "f1" (with_syncingID 1 client)
     = (Returned None, with_syncingID 3 client,
        [request client "s1" "f1"]).
Proof.
  split; [reflexivity|].
  refine (proj1 (proj2 (proj1 (proj2
    (stop_retires_the_running_cycle (superseded s3) [] 1 "s1" "f1"
       (with_syncingID 1 client) s3 eq_refl)) _))).
  vm_compute. discriminate.
Defined.

(** A failed fetch at token "s1" with the 2-second handler. *)
Lemma failed_fetch_is_retried_from_same_token_witness :
  result broken = FetchErr None (errorString "connection reset")
  /\ OnFailedSync (Syncer_ client) None (errorString "connection reset")
     = (Syncer_ client, (2000000000, None))
  /\ outcome (syncIteration broken 1 "s1" "f1" client) = Continue "s1".
Proof.
  split; [reflexivity|]. split; [reflexivity|].
  exact (proj1 (proj2
    (failed_fetch_is_retried_from_same_token broken [] 1 "s1" "f1" client
       None (errorString "connection reset") (Syncer_ client) 2000000000
       None eq_refl eq_refl))).
Defined.


(** The HTML page of a reverse proxy, answered with status 502. *)
Lemma unstructured_error_keeps_body_witness :
  let req := {| Method := "GET"; URL := "/sync"; URL_Path := "/sync";
                Header := ∅; Body := None |} in
  let res := {| StatusCode := 502; ReadAll_contents := badGateway;
                ReadAll_err := None |} in
  Mautrix.newRequest string marshal wellFormed "GET" "/sync" None
    = inl (req, "")
  /\ proxy (setHeaders "mautrix-go" "secret" req "") = inl res
  /\ ~ (200 <= StatusCode res <= 299)
  /\ exists h : HTTPError error,
       MakeRequest string marshal wellFormed proxy decodeRespError decodeAny
         "mautrix-go" "secret" "GET" "/sync" None None
       = (Some badGateway, Some (httpError h))
       /\ contains (Error (httpError h)) badGateway.
Proof.
  cbn zeta. split; [reflexivity|]. split; [reflexivity|].
  assert (~ (200 <= 502 <= 299)) as Hstatus by lia.
  split; [exact Hstatus|].
  destruct (unstructured_error_keeps_body string marshal wellFormed proxy
              decodeRespError decodeAny "mautrix-go" "secret" "GET" "/sync"
              None None _ "" _ eq_refl eq_refl Hstatus)
    as (h & Heq & _ & Hraw & _).
  exists h. split; [exact Heq|]. apply Hraw. reflexivity.
Defined.
End Witnesses.

(** * Further properties of the sync loop *)

#[global] Instance InMemoryStore_separate : SeparateStorer InMemoryStore.
Proof. split; intros s userID v userID'; done. Qed.

Section Generations.
Import Mautrix.
Context {St Sy : Type} `{Storer St} `{Syncer Sy}.
Implicit Types (c : Client St Sy) (script : list FetchStep)
  (step : FetchStep) (id : Z) (nb fid : string).


End Generations.

Section RequestShapes.
Import Mautrix.
Context {St Sy : Type} `{Storer St} `{Syncer Sy}.
Implicit Types (c : Client St Sy) (script : list FetchStep)
  (step : FetchStep) (id : Z) (nb fid : string).

Lemma latest_app d l1 l2 : latest d (l1 ++ l2) = latest (latest d l1) l2.
Proof. unfold latest. rewrite last_app. by destruct (last l2). Qed.

Lemma syncRequests_app (t1 t2 : list Event) :
  syncRequests (t1 ++ t2) = syncRequests t1 ++ syncRequests t2.
Proof. apply omap_app. Qed.

(** What the iterations of the loop keep, whatever the store and the
    syncer: the account and the presence of the client, the shape of the
    requests, and no part in the creation of filters; the token the loop
    stands at is the last one saved. *)
Lemma syncIterations_shape script id nb fid c :
  let r := syncIterations script id nb fid c in
  UserID (final r) = UserID c
  /\ SyncPresence (final r) = SyncPresence c
  /\ (forall nb', outcome r = Continue nb' -> nb' = latest nb (saves (trace r)))
  /\ Forall (cycleRequest fid (SyncPresence c)) (syncRequests (trace r))
  /\ Forall (fun e => filterCreation e = false) (trace r).
Proof.
  revert nb c. induction script as [|step script IH]; intros nb c.
  { cbn. repeat split; try done. by intros nb' [= ->]. }
  cbn zeta. rewrite syncIterations_cons, syncIteration_eq. cbn zeta.
  destruct (concurrently_fields (meanwhile step) c) as (Hu & Hp & Hsy & Hst).
  destruct (result step) as [r|rs err].
  - case_bool_decide as Hgen.
    { unfold final, trace, outcome. cbn [fst snd]. rewrite Hu, Hp.
      repeat split; try done; by repeat constructor. }
    destruct (ProcessResponse (Syncer_ c) r nb) as [sy [e|]].
    { unfold final, trace, outcome. cbn [fst snd].
      cbn [with_Syncer with_Store UserID SyncPresence]. rewrite Hu, Hp.
      repeat split; try done; by repeat constructor. }
    match goal with
    | |- context [syncIterations script id ?nb' fid ?c'] =>
        destruct (IH nb' c') as (IHu & IHp & IHc & IHr & IHe);
        destruct (syncIterations script id nb' fid c') as [[o c2] t2]
    end.
    unfold final, trace, outcome in *. cbn [fst snd] in *.
    cbn [with_Syncer with_Store UserID SyncPresence] in *.
    rewrite Hu, Hp in *. rewrite saves_app, syncRequests_app, !latest_app.
    split; [done|]. split; [done|]. split; [exact IHc|]. split.
    + apply Forall_app. split; [by repeat constructor|done].
    + apply Forall_app. split; [by repeat constructor|done].
  - destruct (OnFailedSync (Syncer_ c) rs err) as [sy [d [e2|]]].
    { unfold final, trace, outcome. cbn [fst snd].
      cbn [with_Syncer UserID SyncPresence]. rewrite Hu, Hp.
      repeat split; try done; by repeat constructor. }
    match goal with
    | |- context [syncIterations script id ?nb' fid ?c'] =>
        destruct (IH nb' c') as (IHu & IHp & IHc & IHr & IHe);
        destruct (syncIterations script id nb' fid c') as [[o c2] t2]
    end.
    unfold final, trace, outcome in *. cbn [fst snd] in *.
    cbn [with_Syncer UserID SyncPresence] in *.
    rewrite Hu, Hp in *. rewrite saves_app, syncRequests_app, !latest_app.
    split; [done|]. split; [done|]. split; [exact IHc|]. split.
    + apply Forall_app. split; [by repeat constructor|done].
    + apply Forall_app. split; [by repeat constructor|done].
Qed.

(** The same for the loop, with the request that may still be out. *)
Lemma syncLoop_shape script id nb fid c :
  let r := syncLoop script id nb fid c in
  UserID (final r) = UserID c
  /\ SyncPresence (final r) = SyncPresence c
  /\ (outcome r = InFlight ->
      last (fetches (trace r)) = Some (latest nb (saves (trace r))))
  /\ Forall (cycleRequest fid (SyncPresence c)) (syncRequests (trace r))
  /\ Forall (fun e => filterCreation e = false) (trace r).
Proof.
  cbn zeta. rewrite syncLoop_iterations.
  destruct (syncIterations_shape script id nb fid c)
    as (Hu & Hp & Hc & Hr & He).
  destruct (syncIterations script id nb fid c) as [[[nb'|e] c1] t];
    unfold final, trace, outcome in *; cbn [fst snd] in *; [|done].
  rewrite fetches_app, saves_app, syncRequests_app, latest_app.
  split; [done|]. split; [done|]. split.
  { intros _. change (fetches [request c1 nb' fid]) with [nb'].
    rewrite last_snoc. cbn. f_equal. by apply Hc. }
  split.
  - apply Forall_app. split; [done|]. repeat constructor. by rewrite Hp.
  - apply Forall_app. split; [done|]. by repeat constructor.
Qed.

(** X2. Every sync request of a call of [Sync] asks for a timeout of
    30000 ms and no full state, with the presence of the client and with
    one and the same filter ID: the one loaded from the store when that
    is not empty, the one just created otherwise. *)
Theorem sync_requests_are_uniform createFilter script c :
  let r := Sync createFilter script c in
  let u := UserID c in
  let cached := LoadFilterID (Store c) u in
  let fid :=
    if bool_decide (cached = "") then
      match createFilter (GetFilterJSON (Syncer_ c) u) with
      | inl resFilter => FilterID resFilter
      | inr _ => ""
      end
    else cached in
  Forall (cycleRequest fid (SyncPresence c)) (syncRequests (trace r)).
Proof.
  cbn zeta. rewrite Sync_eq. cbn zeta.
  case_bool_decide as Hfid.
  - destruct (createFilter _) as [resFilter|err]; [|by constructor].
    match goal with
    | |- context [syncLoop script ?id ?nb ?fid ?c'] =>
        destruct (syncLoop_shape script id nb fid c') as (_ & _ & _ & Hr & _);
        destruct (syncLoop script id nb fid c') as [[o c2] t]
    end.
    unfold trace in *. cbn [snd] in *. by rewrite syncRequests_app.
  - match goal with
    | |- context [syncLoop script ?id ?nb ?fid ?c'] =>
        destruct (syncLoop_shape script id nb fid c') as (_ & _ & _ & Hr & _);
        destruct (syncLoop script id nb fid c') as [[o c2] t]
    end.
    unfold trace in *. cbn [snd] in *. by rewrite syncRequests_app.
Qed.

(** X3. A call of [Sync] that fails to create its filter has already
    advanced the generation: it returns the error, and a cycle that was
    live before the call returns nil at its next successful fetch,
    although no new cycle runs. *)
Theorem failed_start_still_retires_the_running_cycle createFilter script c
    err step payload nb fid :
  LoadFilterID (Store c) (UserID c) = "" ->
  createFilter (GetFilterJSON (Syncer_ c) (UserID c)) = inr err ->
  0 <= syncingID c < 2 ^ 32 ->
  result step = FetchOK payload ->
  meanwhile step = [] ->
  let r := Sync createFilter script c in
  outcome r = Returned (Some err)
  /\ syncingID (final r) = (syncingID c + 1) mod 2 ^ 32
  /\ syncingID (final r) <> syncingID c
  /\ syncIteration step (syncingID c) nb fid (final r)
     = (Return None, final r, [request c nb fid]).
Proof.
  intros Hcached Hcf Hc Hres Hmean. cbn zeta.
  rewrite Sync_eq. cbn zeta. rewrite Hcached, Hcf. cbn.
  assert ((syncingID c + 1) mod 2 ^ 32 <> syncingID c) as Hne.
  { destruct (decide (syncingID c + 1 < 2 ^ 32)).
    - rewrite Z.mod_small by lia. lia.
    - replace (syncingID c) with (2 ^ 32 - 1) by lia. done. }
  split; [done|]. split; [done|]. split; [done|].
  rewrite syncIteration_eq, Hres, Hmean. cbn.
  by rewrite bool_decide_eq_true_2.
Qed.
End RequestShapes.

Section StoreProperties.
Import Mautrix.
Context {St Sy : Type} `{Storer St} `{Syncer Sy}.
Context `{!DurableStorer St} `{!SeparateStorer St}.
Implicit Types (c : Client St Sy) (script : list FetchStep)
  (step : FetchStep) (id : Z) (nb fid : string).

(** With a store that is durable and keeps its two kinds of state
    apart, the iterations leave the stored filter IDs alone and the
    stored token of the account is the last one saved. *)
Lemma syncIterations_store script id nb fid c :
  let r := syncIterations script id nb fid c in
  let u := UserID c in
  (forall u', LoadFilterID (Store (final r)) u' = LoadFilterID (Store c) u')
  /\ LoadNextBatch (Store (final r)) u
     = latest (LoadNextBatch (Store c) u) (saves (trace r)).
Proof.
  revert nb c. induction script as [|step script IH]; intros nb c; [done|].
  cbn zeta. rewrite syncIterations_cons, syncIteration_eq. cbn zeta.
  destruct (concurrently_fields (meanwhile step) c) as (Hu & Hp & Hsy & Hst).
  destruct (result step) as [r|rs err].
  - case_bool_decide as Hgen.
    { unfold final, trace. cbn [fst snd]. by rewrite Hst. }
    destruct (ProcessResponse (Syncer_ c) r nb) as [sy [e|]].
    { unfold final, trace. cbn [fst snd]. cbn [with_Syncer with_Store Store].
      split; [intros u'; apply save_next_batch_keeps_filter_id|].
      cbn. apply load_saved_next_batch. }
    match goal with
    | |- context [syncIterations script id ?nb' fid ?c'] =>
        destruct (IH nb' c') as (IHf & IHt);
        destruct (syncIterations script id nb' fid c') as [[o c2] t2]
    end.
    unfold final, trace in *. cbn [fst snd] in *.
    cbn [with_Syncer with_Store UserID Store] in *. rewrite Hu in *.
    rewrite saves_app, latest_app. split.
    + intros u'. rewrite IHf. apply save_next_batch_keeps_filter_id.
    + by rewrite IHt, load_saved_next_batch.
  - destruct (OnFailedSync (Syncer_ c) rs err) as [sy [d [e2|]]].
    { unfold final, trace. cbn [fst snd]. cbn [with_Syncer Store].
      by rewrite Hst. }
    match goal with
    | |- context [syncIterations script id ?nb' fid ?c'] =>
        destruct (IH nb' c') as (IHf & IHt);
        destruct (syncIterations script id nb' fid c') as [[o c2] t2]
    end.
    unfold final, trace in *. cbn [fst snd] in *.
    cbn [with_Syncer UserID Store] in *. rewrite Hu, Hst in *.
    by rewrite saves_app, latest_app.
Qed.

Lemma syncLoop_store script id nb fid c :
  let r := syncLoop script id nb fid c in
  let u := UserID c in
  (forall u', LoadFilterID (Store (final r)) u' = LoadFilterID (Store c) u')
  /\ LoadNextBatch (Store (final r)) u
     = latest (LoadNextBatch (Store c) u) (saves (trace r)).
Proof.
  cbn zeta. rewrite syncLoop_iterations.
  destruct (syncIterations_store script id nb fid c) as (Hf & Ht).
  destruct (syncIterations script id nb fid c) as [[[nb'|e] c1] t];
    unfold final, trace in *; cbn [fst snd] in *; [|done].
  rewrite saves_app, latest_app. done.
Qed.


(** A call of [Sync] that finds a filter ID in the store goes to the loop
    after its two loads. *)
Lemma Sync_cached createFilter script c :
  LoadFilterID (Store c) (UserID c) <> "" ->
  Sync createFilter script c =
  let '(o, c2, t) :=
    syncLoop script ((syncingID c + 1) mod 2 ^ 32)
      (LoadNextBatch (Store c) (UserID c)) (LoadFilterID (Store c) (UserID c))
      (with_syncingID ((syncingID c + 1) mod 2 ^ 32) c) in
  (o, c2, [EvLoadNextBatch (UserID c); EvLoadFilterID (UserID c)] ++ t).
Proof.
  intros Hfid. rewrite Sync_eq. cbn zeta.
  by rewrite bool_decide_eq_false_2.
Qed.

(** X5. With such a store, once a call of [Sync] has created a filter with
    a non-empty ID, the ID is in the store when the call is over,
    whatever its long polls brought; and any later call of [Sync] on that
    client creates no filter and sends all its requests with that ID. *)
Theorem filter_is_created_once createFilter script c resFilter
    createFilter' script' :
  LoadFilterID (Store c) (UserID c) = "" ->
  createFilter (GetFilterJSON (Syncer_ c) (UserID c)) = inl resFilter ->
  FilterID resFilter <> "" ->
  let r := Sync createFilter script c in
  let r' := Sync createFilter' script' (final r) in
  LoadFilterID (Store (final r)) (UserID c) = FilterID resFilter
  /\ Forall (fun e => filterCreation e = false) (trace r')
  /\ Forall (cycleRequest (FilterID resFilter) (SyncPresence c))
       (syncRequests (trace r')).
Proof.
  intros Hcached Hcf Hne. cbn zeta.
  assert (UserID (final (Sync createFilter script c)) = UserID c
          /\ SyncPresence (final (Sync createFilter script c)) = SyncPresence c
          /\ LoadFilterID (Store (final (Sync createFilter script c))) (UserID c)
             = FilterID resFilter) as (Hu & Hp & Hf).
  { rewrite Sync_eq. cbn zeta. rewrite Hcached, Hcf. cbn [bool_decide].
    rewrite bool_decide_eq_true_2 by done.
    match goal with
    | |- context [syncLoop script ?id ?nb ?fid ?c'] =>
        destruct (syncLoop_store script id nb fid c') as (Hf & _);
        destruct (syncLoop_shape script id nb fid c') as (Hu & Hp & _);
        destruct (syncLoop script id nb fid c') as [[o c2] t]
    end.
    unfold final in *. cbn [fst snd] in *.
    cbn [with_Store with_syncingID UserID SyncPresence Store] in *.
    rewrite Hu, Hp, Hf. split; [done|]. split; [done|].
    apply load_saved_filter_id. }
  split; [done|].
  set (c' := final (Sync createFilter script c)) in *.
  rewrite Sync_cached by (rewrite Hu, Hf; done).
  rewrite Hu, Hf.
  match goal with
  | |- context [syncLoop script' ?id ?nb ?fid ?c''] =>
      destruct (syncLoop_shape script' id nb fid c'') as (_ & _ & _ & Hr & He);
      destruct (syncLoop script' id nb fid c'') as [[o c2] t]
  end.
  unfold trace in *. cbn [snd] in *. cbn [with_syncingID SyncPresence] in *.
  rewrite Hp in Hr. rewrite syncRequests_app. split.
  - apply Forall_app. split; [by repeat constructor|done].
  - done.
Qed.
End StoreProperties.

(** * Further properties of [MakeRequest] *)

Section MakeRequestResults.
Import Mautrix.
Variable Any : Type.
Variable json_Marshal : Any -> string + error.
Variable http_NewRequest : string -> string -> option string -> Request + error.
Variable Client_Do : Request -> Response + error.
Variable json_Unmarshal_RespError : string -> RespError.
Variable json_Unmarshal : string -> Any -> option error.
Variables (UserAgent AccessToken : string).

Abbreviation MakeRequest'' :=
  (MakeRequest Any json_Marshal http_NewRequest Client_Do
     json_Unmarshal_RespError json_Unmarshal UserAgent AccessToken).
Abbreviation newRequest' := (newRequest Any json_Marshal http_NewRequest).
Abbreviation setHeaders' := (setHeaders UserAgent AccessToken).

(** X6. [MakeRequest] returns a nil error exactly when the request could
    be built, the HTTP client returned a response, the status is in
    200..299, the body was read without error and, if a target was given,
    the body decoded into it; it then returns the bytes of the body. *)
Theorem MakeRequest_succeeds_iff_every_stage_does (method httpURL : string)
    (reqBody resBody : option Any) :
  let out := MakeRequest Any json_Marshal http_NewRequest Client_Do
               json_Unmarshal_RespError json_Unmarshal UserAgent AccessToken
               method httpURL reqBody resBody in
  (snd out = None <->
   exists req logBody res,
     newRequest' method httpURL reqBody = inl (req, logBody)
     /\ Client_Do (setHeaders' req logBody) = inl res
     /\ 200 <= StatusCode res <= 299
     /\ ReadAll_err res = None
     /\ match resBody with
        | Some target => json_Unmarshal (ReadAll_contents res) target = None
        | None => True
        end)
  /\ (snd out = None ->
      exists req logBody res,
        newRequest' method httpURL reqBody = inl (req, logBody)
        /\ Client_Do (setHeaders' req logBody) = inl res
        /\ fst out = Some (ReadAll_contents res)).
Proof.
  cbn zeta. unfold MakeRequest.
  destruct (newRequest' method httpURL reqBody) as [[req logBody]|err] eqn:Hnew.
  2:{ split; [|done]. split; [done|]. by intros (? & ? & ? & [=] & _). }
  cbn zeta.
  destruct (Client_Do (setHeaders' req logBody)) as [res|err] eqn:Hdo.
  2:{ split; [|done]. split; [done|].
      intros (? & ? & ? & [= <- <-] & Hdo' & _). congruence. }
  destruct (not2xx (StatusCode res)) eqn:Hstatus.
  { apply not2xx_spec in Hstatus. unfold errorResponse.
    split; [|by case_bool_decide]. split; [by case_bool_decide|].
    intros (? & ? & ? & [= <- <-] & Hdo' & H2xx & _).
    rewrite Hdo in Hdo'. injection Hdo' as <-. done. }
  assert (200 <= StatusCode res <= 299) as H2xx.
  { destruct (decide (200 <= StatusCode res <= 299)) as [|Hn]; [done|].
    apply not2xx_spec in Hn. congruence. }
  destruct (ReadAll_err res) as [err|] eqn:Hread.
  { split; [|done]. split; [done|].
    intros (? & ? & ? & [= <- <-] & Hdo' & _ & Hread' & _).
    rewrite Hdo in Hdo'. injection Hdo' as <-. congruence. }
  destruct resBody as [target|].
  - destruct (json_Unmarshal (ReadAll_contents res) target) as [err|] eqn:Hdec.
    + split; [|done]. split; [done|].
      intros (? & ? & ? & [= <- <-] & Hdo' & _ & _ & Hdec').
      rewrite Hdo in Hdo'. injection Hdo' as <-. congruence.
    + split; [|intros _; by exists req, logBody, res].
      split; [|done]. intros _. by exists req, logBody, res.
  - split; [|intros _; by exists req, logBody, res].
    split; [|done]. intros _. by exists req, logBody, res.
Qed.

(** X7. [MakeRequest] returns bytes together with an error exactly when
    it got a response whose status is outside 200..299, and the bytes are
    then the body of that response, whether or not reading it failed: a
    read error is reported, with nil bytes, only for a 2xx response. *)
Theorem MakeRequest_returns_body_with_error_iff_not_2xx
    (method httpURL : string) (reqBody resBody : option Any) :
  let out := MakeRequest Any json_Marshal http_NewRequest Client_Do
               json_Unmarshal_RespError json_Unmarshal UserAgent AccessToken
               method httpURL reqBody resBody in
  (forall bytes : string,
     (fst out = Some bytes /\ snd out <> None) <->
     exists req logBody res,
       newRequest' method httpURL reqBody = inl (req, logBody)
       /\ Client_Do (setHeaders' req logBody) = inl res
       /\ ~ (200 <= StatusCode res <= 299)
       /\ bytes = ReadAll_contents res)
  /\ (forall req logBody res err,
       newRequest' method httpURL reqBody = inl (req, logBody) ->
       Client_Do (setHeaders' req logBody) = inl res ->
       ReadAll_err res = Some err ->
       if bool_decide (200 <= StatusCode res <= 299)
       then out = (None, Some err)
       else exists h, out = (Some (ReadAll_contents res), Some (httpError h))).
Proof.
  cbn zeta. unfold MakeRequest. split.
  - intros bytes.
    destruct (newRequest' method httpURL reqBody)
      as [[req logBody]|err] eqn:Hnew.
    2:{ split; [by intros [[=] _]|]. by intros (? & ? & ? & [=] & _). }
    cbn zeta.
    destruct (Client_Do (setHeaders' req logBody)) as [res|err] eqn:Hdo.
    2:{ split; [by intros [[=] _]|].
        intros (? & ? & ? & [= <- <-] & Hdo' & _). congruence. }
    destruct (not2xx (StatusCode res)) eqn:Hstatus.
    { apply not2xx_spec in Hstatus. unfold errorResponse. split.
      - intros [Hb _]. exists req, logBody, res.
        case_bool_decide; cbn in Hb; by injection Hb as <-.
      - intros (? & ? & ? & [= <- <-] & Hdo' & _ & ->).
        rewrite Hdo in Hdo'. injection Hdo' as <-.
        by case_bool_decide. }
    assert (200 <= StatusCode res <= 299) as H2xx.
    { destruct (decide (200 <= StatusCode res <= 299)) as [|Hn]; [done|].
      apply not2xx_spec in Hn. congruence. }
    split.
    + intros [Hb He]. exfalso.
      destruct (ReadAll_err res); [done|].
      destruct resBody as [target|]; [|done].
      by destruct (json_Unmarshal (ReadAll_contents res) target).
    + intros (? & ? & ? & [= <- <-] & Hdo' & Hn & _).
      rewrite Hdo in Hdo'. injection Hdo' as <-. done.
  - intros req logBody res err Hnew Hdo Hread. rewrite Hnew. cbn zeta.
    rewrite Hdo. case_bool_decide as H2xx.
    + assert (not2xx (StatusCode res) = false) as ->.
      { destruct (not2xx (StatusCode res)) eqn:Hs; [|done].
        by apply not2xx_spec in Hs. }
      by rewrite Hread.
    + apply not2xx_spec in H2xx. rewrite H2xx. unfold errorResponse.
      case_bool_decide; by eexists.
Qed.
End MakeRequestResults.

(** * Properties of the URLs and of the transaction IDs *)

Section URLProperties.
Import Requests.
Variable URL_String : URL -> string.
Variable url_Parse : string -> URL.
Variable url_PathEscape : string -> string.
Variable path_Join : list string -> string.
Variable url_ParseQuery : string -> Values.
Variable Values_Encode : Values -> string.

Abbreviation fillParts' := (fillParts url_PathEscape).
Abbreviation builtBaseURL' :=
  (builtBaseURL URL_String url_Parse url_PathEscape path_Join url_ParseQuery
     Values_Encode).
Abbreviation BuildURL' :=
  (BuildURL URL_String url_Parse url_PathEscape path_Join url_ParseQuery
     Values_Encode).
Abbreviation builtURLWithQuery' :=
  (builtURLWithQuery URL_String url_Parse url_PathEscape path_Join
     url_ParseQuery Values_Encode).

(** The loop that writes index [i+1] for the [i]-th segment fills the
    two slices with the segments, in order, after what was there. *)
Lemma fill_from (k : nat) (urlPath pa pb : list string) :
  length pa = S k -> length pb = S k ->
  foldl (fun '(parts, rawParts) '(i, part) =>
           (<[S i := part]> parts, <[S i := url_PathEscape part]> rawParts))
        (pa ++ replicate (length urlPath) "",
         pb ++ replicate (length urlPath) "")
        (imap (fun i part => ((k + i)%nat, part)) urlPath)
  = (pa ++ urlPath, pb ++ map url_PathEscape urlPath).
Proof.
  revert k pa pb. induction urlPath as [|x l IH]; intros k pa pb Ha Hb.
  { cbn. by rewrite !app_nil_r. }
  rewrite imap_cons. cbn [foldl length replicate map].
  rewrite Nat.add_0_r.
  rewrite <- Ha at 1. rewrite <- Hb at 1.
  rewrite <- (Nat.add_0_r (length pa)) at 1.
  rewrite <- (Nat.add_0_r (length pb)) at 1.
  rewrite !insert_app_r. cbn [insert list_insert].
  rewrite (cons_middle x pa), (cons_middle (url_PathEscape x) pb).
  rewrite (cons_middle x pa l), (cons_middle (url_PathEscape x) pb).
  rewrite !app_assoc.
  rewrite <- (IH (S k) (pa ++ [x]) (pb ++ [url_PathEscape x]))
    by (rewrite length_app; cbn; lia).
  f_equal. apply imap_ext. intros i y _. cbn. f_equal. lia.
Qed.

Lemma fillParts_spec (p0 r0 : string) (urlPath : list string) :
  fillParts' urlPath
    (<[0%nat := p0]> (replicate (length urlPath + 1) ""))
    (<[0%nat := r0]> (replicate (length urlPath + 1) ""))
  = (p0 :: urlPath, r0 :: map url_PathEscape urlPath).
Proof.
  unfold fillParts. rewrite Nat.add_1_r. cbn [replicate insert list_insert].
  apply (fill_from 0 urlPath [p0] [r0]); done.
Qed.

(** X8. The URL that [BuildBaseURL] builds from the homeserver URL [hs]
    (as re-parsed from its text): its path joins the path of [hs] and the
    given segments, in order; its raw path joins the raw path of [hs] and
    the escaped segments, in the same order; and its query is the query of
    [hs] in which [user_id] is set to the application service user, and
    only when that user is not empty: every other key is kept. *)
Theorem BuildBaseURL_joins_segments_and_keeps_query (cli : Client)
    (urlPath : list string) :
  let hs := url_Parse (URL_String (HomeserverURL cli)) in
  let u := builtBaseURL' cli urlPath in
  Base u = Base hs
  /\ Path u = path_Join (Path hs :: urlPath)
  /\ RawPath u = path_Join (RawPath hs :: map url_PathEscape urlPath)
  /\ exists query : Values,
       RawQuery u = Values_Encode query
       /\ forall k,
            query !! k =
            if bool_decide (k = "user_id" /\ AppServiceUserID cli <> "")
            then Some [AppServiceUserID cli]
            else url_ParseQuery (RawQuery hs) !! k.
Proof.
  cbn zeta. unfold builtBaseURL. rewrite fillParts_spec. cbn.
  split; [done|]. split; [done|]. split; [done|].
  eexists. split; [reflexivity|]. intros k. unfold URL_Query, Values_Set. cbn.
  case_bool_decide as Happ.
  - case_bool_decide as Hk.
    + destruct Hk as [-> _]. by rewrite lookup_insert_eq.
    + rewrite lookup_insert_ne; [done|]. intros <-. by apply Hk.
  - rewrite bool_decide_eq_false_2; [done|]. intros [_ ?]. done.
Qed.

(** X9. The URL that [BuildURLWithQuery] builds is the URL of [BuildURL]
    (as re-parsed from its text) with another query: every key of the
    given map has its value from the map, as its only value, whatever the
    URL had for it, and every other key keeps the values the URL had.
    The order in which the map is gone through does not show. *)
Theorem BuildURLWithQuery_overrides_given_keys_only (cli : Client)
    (urlPath : list string) (urlQuery : gmap string string) :
  let u0 := url_Parse (BuildURL' cli urlPath) in
  let u := builtURLWithQuery' cli urlPath urlQuery in
  Base u = Base u0 /\ Path u = Path u0 /\ RawPath u = RawPath u0
  /\ exists query : Values,
       RawQuery u = Values_Encode query
       /\ forall k,
            query !! k =
            match urlQuery !! k with
            | Some v => Some [v]
            | None => url_ParseQuery (RawQuery u0) !! k
            end.
Proof.
  cbn zeta. unfold builtURLWithQuery. cbn.
  split; [done|]. split; [done|]. split; [done|].
  eexists. split; [reflexivity|].
  set (q0 := URL_Query _ _).
  apply (map_fold_weak_ind
           (fun (q : Values) (m : gmap string string) =>
              forall k, q !! k = match m !! k with
                                 | Some v => Some [v]
                                 | None => q0 !! k
                                 end)).
  - intros k. by rewrite lookup_empty.
  - intros i x m r Hi IH k. unfold Values_Set.
    destruct (decide (i = k)) as [->|Hne].
    + by rewrite !lookup_insert_eq.
    + rewrite !lookup_insert_ne by done. apply IH.
Qed.
End URLProperties.

Section TxnIDProperties.
Import Requests.

Lemma int32_range (z : Z) : - 2 ^ 31 <= int32 z < 2 ^ 31.
Proof.
  unfold int32. pose proof (Z.mod_pos_bound (z + 2 ^ 31) (2 ^ 32) ltac:(lia)).
  lia.
Qed.

Lemma int32_succ_ne (z : Z) : - 2 ^ 31 <= z < 2 ^ 31 -> int32 (z + 1) <> z.
Proof.
  intros Hz. unfold int32.
  destruct (decide (z + 1 < 2 ^ 31)) as [Hlt|Hge].
  - rewrite Z.mod_small by lia. lia.
  - replace z with (2 ^ 31 - 1) by lia. done.
Qed.

Lemma length_append (a b : string) :
  String.length (a +:+ b) = (String.length a + String.length b)%nat.
Proof.
  induction a as [|x a IH]; [done|].
  change (S (String.length (a +:+ b)) = S (String.length a + String.length b)).
  by rewrite IH.
Qed.

(** Two concatenations with first parts of the same length are equal
    only if the parts are. *)
Lemma append_inj_length (a a' b b' : string) :
  String.length a = String.length a' ->
  a +:+ b = a' +:+ b' -> a = a' /\ b = b'.
Proof.
  revert a'. induction a as [|x a IH]; intros [|x' a'] Hlen Heq;
    try discriminate.
  - done.
  - change (String x (a +:+ b) = String x' (a' +:+ b')) in Heq.
    injection Heq as -> Heq. injection Hlen as Hlen.
    destruct (IH a' Hlen Heq) as [-> ->]. done.
Qed.

(** X10. Two transaction IDs issued at clock readings with the same
    number of digits are equal only if the readings are equal and the
    counter had the same value; so two calls in a row never give the same
    ID at such readings.  The counter stays an int32.  The two numbers are
    written one after the other with nothing between them, so readings of
    different lengths can give the same ID. *)
Theorem transaction_ids_are_distinct :
  (forall now1 now2 cli1 cli2,
     String.length (pretty now1) = String.length (pretty now2) ->
     fst (TxnID now1 cli1) = fst (TxnID now2 cli2) ->
     now1 = now2
     /\ txnID (snd (TxnID now1 cli1)) = txnID (snd (TxnID now2 cli2)))
  /\ (forall now1 now2 cli,
       - 2 ^ 31 <= txnID cli < 2 ^ 31 ->
       String.length (pretty now1) = String.length (pretty now2) ->
       fst (TxnID now2 (snd (TxnID now1 cli))) <> fst (TxnID now1 cli))
  /\ (forall now cli,
       - 2 ^ 31 <= txnID (snd (TxnID now cli)) < 2 ^ 31)
  /\ (forall cli,
       fst (TxnID 1 (with_txnID 22 cli)) = fst (TxnID 12 (with_txnID 2 cli))).
Proof.
  assert (forall now1 now2 cli1 cli2,
     String.length (pretty now1) = String.length (pretty now2) ->
     fst (TxnID now1 cli1) = fst (TxnID now2 cli2) ->
     now1 = now2
     /\ txnID (snd (TxnID now1 cli1)) = txnID (snd (TxnID now2 cli2))) as Hinj.
  { intros now1 now2 cli1 cli2 Hlen Heq. cbn in *.
    change ("go" +:+ pretty now1 +:+ pretty (int32 (txnID cli1 + 1))
            = "go" +:+ pretty now2 +:+ pretty (int32 (txnID cli2 + 1))) in Heq.
    apply (append_inj_length "go" "go") in Heq as [_ Heq]; [|done].
    apply append_inj_length in Heq as [Hnow Hid]; [|done].
    split; by apply (inj pretty). }
  split; [exact Hinj|]. split; [|split].
  - intros now1 now2 cli Hrange Hlen Heq.
    apply Hinj in Heq as [_ Heq]; [|done]. cbn in Heq.
    by apply (int32_succ_ne (int32 (txnID cli + 1)) (int32_range _)).
  - intros now cli. cbn. apply int32_range.
  - intros cli. by vm_compute.
Qed.
End TxnIDProperties.

(** * Properties of the request wrappers *)

Section WrapperProperties.
Import Requests.
Variable URL_String : URL -> string.
Variable url_Parse : string -> URL.
Variable url_PathEscape : string -> string.
Variable path_Join : list string -> string.
Variable url_ParseQuery : string -> Values.
Variable Values_Encode : Values -> string.
Variable Any : Type.
Variable respond : Call Any -> Answer Any.
Variable EventType : Type.
Variable EventType_String : EventType -> string.
Variables EventMessage EventReaction : EventType.
Variable box_Content : Content -> Any.
Variables MsgText MsgImage MsgVideo MsgNotice RelAnnotation : string.
Variable box_ReqRedact : ReqRedact -> Any.

Abbreviation BuildURL'' :=
  (BuildURL URL_String url_Parse url_PathEscape path_Join url_ParseQuery
     Values_Encode).
Abbreviation BuildURLWithQuery'' :=
  (BuildURLWithQuery URL_String url_Parse url_PathEscape path_Join
     url_ParseQuery Values_Encode).
Abbreviation SendMessageEvent' :=
  (SendMessageEvent URL_String url_Parse url_PathEscape path_Join
     url_ParseQuery Values_Encode Any respond EventType EventType_String).
Abbreviation Send' f :=
  (f URL_String url_Parse url_PathEscape path_Join url_ParseQuery
     Values_Encode Any respond EventType EventType_String).
Abbreviation RedactEvent' :=
  (RedactEvent URL_String url_Parse url_PathEscape path_Join url_ParseQuery
     Values_Encode Any respond box_ReqRedact).

Ltac runR :=
  unfold mbind, R_bind, mret, R_ret, panic, self, MakeRequest, cli_TxnID,
    index0; cbn.

Lemma len_pos (s : string) : (0 <? len s) = negb (bool_decide (s = "")).
Proof. by destruct s. Qed.

(** X11. [SendMessageEvent] called without [extra] panics, on every
    client and for every room, type and content: it reads [extra[0]]
    after it has drawn a fresh transaction ID, so the counter has moved
    and no request has been made.  [SendText], [SendImage], [SendVideo],
    [SendNotice] and [SendReaction] call it that way, so they panic on
    every input. *)
Theorem sending_without_extra_panics (now : Z) (cli : Client)
    (roomID : string) :
  (forall eventType contentJSON,
     SendMessageEvent' now roomID eventType contentJSON [] cli
     = (None, snd (TxnID now cli), []))
  /\ (forall text,
       Send' SendText EventMessage box_Content MsgText now roomID text cli
       = (None, snd (TxnID now cli), []))
  /\ (forall body url,
       Send' SendImage EventMessage box_Content MsgImage now roomID body url cli
       = (None, snd (TxnID now cli), []))
  /\ (forall body url,
       Send' SendVideo EventMessage box_Content MsgVideo now roomID body url cli
       = (None, snd (TxnID now cli), []))
  /\ (forall text,
       Send' SendNotice EventMessage box_Content MsgNotice now roomID text cli
       = (None, snd (TxnID now cli), []))
  /\ (forall eventID reaction,
       Send' SendReaction EventReaction box_Content RelAnnotation now roomID
         eventID reaction cli
       = (None, snd (TxnID now cli), [])).
Proof.
  assert (forall eventType contentJSON,
     SendMessageEvent' now roomID eventType contentJSON [] cli
     = (None, snd (TxnID now cli), [])) as Hpanic.
  { intros eventType contentJSON. unfold SendMessageEvent. by runR. }
  repeat split; intros; apply Hpanic.
Qed.



(** [RedactEvent] does not panic, with or without [extra]: it makes
    exactly one PUT, to the redact URL of the event, whose last segment
    is the transaction ID of [extra[0]] when there is one and it is not
    empty, and a fresh transaction ID otherwise; only in the second case
    does the counter of the client move. *)
Lemma RedactEvent_makes_one_request now roomID eventID extra cli :
  let req := match extra with
             | e :: _ => e
             | [] => {| Reason := ""; redact_TxnID := "" |}
             end in
  let '(txn, cli') :=
    if bool_decide (redact_TxnID req = "") then TxnID now cli
    else (redact_TxnID req, cli) in
  let call := {| call_method := "PUT";
                 call_url :=
                   BuildURL'' cli ["rooms"; roomID; "redact"; eventID; txn];
                 call_reqBody := Some (box_ReqRedact req);
                 call_resBody := true |} in
  RedactEvent' now roomID eventID extra cli
  = (Some (ans_resp (respond call), ans_err (respond call)), cli', [call]).
Proof.
  cbn zeta. unfold RedactEvent. rewrite len_pos.
  destruct (bool_decide (redact_TxnID _ = "")); by runR.
Qed.

(** The query of a sync request: [timeout] is always there, as the
    decimal text of the timeout; [since], [filter] and [set_presence] are
    there exactly when their values are not empty; [full_state] is there,
    with value "true", exactly when a full state is asked for; there is no
    other key. *)
Lemma sync_query_leaves_out_empty_values timeout since filterID fullState
    setPresence (k : string) :
  syncQuery timeout since filterID fullState setPresence !! k =
  if bool_decide (k = "timeout") then Some (pretty timeout)
  else if bool_decide (k = "since") then
    (if bool_decide (since = "") then None else Some since)
  else if bool_decide (k = "filter") then
    (if bool_decide (filterID = "") then None else Some filterID)
  else if bool_decide (k = "set_presence") then
    (if bool_decide (setPresence = "") then None else Some setPresence)
  else if bool_decide (k = "full_state") then
    (if fullState then Some "true" else None)
  else None.
Proof.
  unfold syncQuery.
  destruct fullState; repeat case_bool_decide; subst;
    simplify_map_eq; done.
Qed.
End WrapperProperties.

Section RegisterProperties.
Import Requests.
Variable URL_String : URL -> string.
Variable url_Parse : string -> URL.
Variable url_PathEscape : string -> string.
Variable path_Join : list string -> string.
Variable url_ParseQuery : string -> Values.
Variable Values_Encode : Values -> string.
Variable Any : Type.
Variable respond : Call Any -> Answer Any.
Variables RespRegister RespUserInteractive : Type.
Variable json_Unmarshal_RespRegister :
  option string -> option RespRegister * option error.
Variable json_Unmarshal_RespUserInteractive :
  option string -> option RespUserInteractive * option error.
Variable box_ReqRegister : ReqRegister -> Any.
Variable HasSingleStageFlow : RespUserInteractive -> string -> bool.
Variable Session : RespUserInteractive -> string.

Abbreviation register' :=
  (register Any respond RespRegister RespUserInteractive
     json_Unmarshal_RespRegister json_Unmarshal_RespUserInteractive).
Abbreviation Register' :=
  (Register URL_String url_Parse url_PathEscape path_Join url_ParseQuery
     Values_Encode Any respond RespRegister RespUserInteractive
     json_Unmarshal_RespRegister json_Unmarshal_RespUserInteractive
     box_ReqRegister).
Abbreviation RegisterDummy' :=
  (RegisterDummy URL_String url_Parse url_PathEscape path_Join url_ParseQuery
     Values_Encode Any respond RespRegister RespUserInteractive
     json_Unmarshal_RespRegister json_Unmarshal_RespUserInteractive
     box_ReqRegister HasSingleStageFlow Session).
Abbreviation registerURL cli :=
  (BuildURL URL_String url_Parse url_PathEscape path_Join url_ParseQuery
     Values_Encode cli ["register"]).

Ltac runR' :=
  unfold mbind, R_bind, mret, R_ret, panic, self, MakeRequest; cbn.

(** X13. [register] makes one POST, without a target to decode into, and
    leaves the client as it is.  Of the response and the
    user-interactive response it returns at most one.  With no error from
    the request, it returns what decoding the body as a registration
    response gives.  With an HTTP error of status 401, the error is
    replaced by that of decoding the body as a user-interactive response:
    a 401 whose body decodes is returned with a nil error.  Any other
    error is returned as it is, with both responses nil. *)
Theorem register_turns_401_into_an_interactive_response (u : string)
    (req : Any) (cli : Client) :
  let call := {| call_method := "POST"; call_url := u;
                 call_reqBody := Some req; call_resBody := false |} in
  let a := respond call in
  exists resp uia err,
    register' u req cli = (Some (resp, uia, err), cli, [call])
    /\ ~ (resp <> None /\ uia <> None)
    /\ (ans_err a = None ->
        uia = None
        /\ (resp, err) = json_Unmarshal_RespRegister (ans_bytes a))
    /\ (forall h, ans_err a = Some (httpError h) -> Code h = 401 ->
        resp = None
        /\ (uia, err) = json_Unmarshal_RespUserInteractive (ans_bytes a))
    /\ (forall e, ans_err a = Some e ->
        (forall h, e = httpError h -> Code h <> 401) ->
        resp = None /\ uia = None /\ err = Some e).
Proof.
  cbn zeta. unfold register. runR'.
  set (a := respond _).
  destruct (ans_err a) as [e|] eqn:Herr.
  - destruct e as [msg|msg cause|r|h].
    1-3: (eexists _, _, _; split; [reflexivity|];
          split; [by intros [? ?]|]; split; [done|];
          split; [by intros ? [=]|]; by intros ? [= <-] ?).
    destruct (Code h =? 401) eqn:H401.
    + destruct (json_Unmarshal_RespUserInteractive (ans_bytes a))
        as [uia err] eqn:Hdec.
      eexists _, _, _. split; [reflexivity|].
      split; [by intros [? ?]|]. split; [done|]. split.
      * by intros ? [= <-] ?.
      * intros ? [= <-] Hne. exfalso. apply (Hne h eq_refl). lia.
    + eexists _, _, _. split; [reflexivity|].
      split; [by intros [? ?]|]. split; [done|]. split.
      * intros ? [= <-] ?. lia.
      * by intros ? [= <-] ?.
  - destruct (json_Unmarshal_RespRegister (ans_bytes a)) as [resp err] eqn:Hdec.
    eexists _, _, _. split; [reflexivity|].
    split; [by intros [? ?]|]. split; [done|]. split; by intros.
Qed.

(** [register] makes its one call and returns. *)
Lemma register_runs (u : string) (req : Any) (cli : Client) :
  exists x,
    register' u req cli
    = (Some x, cli,
       [ {| call_method := "POST"; call_url := u;
            call_reqBody := Some req; call_resBody := false |} ]).
Proof.
  unfold register. runR'. set (a := respond _).
  destruct (ans_err a) as [[msg|msg cause|r|h]|]; try by eexists.
  - destruct (Code h =? 401); [|by eexists].
    destruct (json_Unmarshal_RespUserInteractive (ans_bytes a)). by eexists.
  - destruct (json_Unmarshal_RespRegister (ans_bytes a)). by eexists.
Qed.

(** [Register] is [register] on the register URL of the client. *)
Lemma Register_runs (req : ReqRegister) (cli : Client) :
  exists x,
    Register' req cli
    = (Some x, cli,
       [ {| call_method := "POST"; call_url := registerURL cli;
            call_reqBody := Some (box_ReqRegister req);
            call_resBody := false |} ])
    /\ register' (registerURL cli) (box_ReqRegister req) cli
       = Register' req cli.
Proof.
  destruct (register_runs (registerURL cli) (box_ReqRegister req) cli)
    as (x & Heq).
  exists x. unfold Register. unfold mbind, R_bind, self.
  rewrite Heq. done.
Qed.

(** X14. [RegisterDummy] returns a response or an error, never both and
    never neither, and leaves the client as it is.  It registers once, or
    twice: twice exactly when the first answer is a user-interactive
    response with "m.login.dummy" as a single-stage flow, and then the
    second request is the first one with [Auth] set to that type and to
    the session of the answer, which is also how it leaves the caller's
    request; otherwise the request is left as it was. *)
Theorem RegisterDummy_registers_at_most_twice (req : ReqRegister)
    (cli : Client) :
  let call1 := {| call_method := "POST"; call_url := registerURL cli;
                  call_reqBody := Some (box_ReqRegister req);
                  call_resBody := false |} in
  exists res err req' calls res1 uia1 err1,
    RegisterDummy' req cli = (Some (res, err, req'), cli, calls)
    /\ fst (fst (Register' req cli)) = Some (res1, uia1, err1)
    /\ (res = None <-> err <> None)
    /\ match uia1 with
       | Some u =>
           if HasSingleStageFlow u "m.login.dummy" then
             req' = {| Account := Account req;
                       Auth := Some ("m.login.dummy", Session u) |}
             /\ calls = [call1;
                         {| call_method := "POST"; call_url := registerURL cli;
                            call_reqBody := Some (box_ReqRegister req');
                            call_resBody := false |}]
           else req' = req /\ calls = [call1]
       | None => req' = req /\ calls = [call1]
       end.
Proof.
  cbn zeta.
  destruct (Register_runs req cli) as ([[res1 uia1] err1] & Hreg1 & _).
  set (call1 := {| call_method := "POST"; call_url := registerURL cli;
                   call_reqBody := Some (box_ReqRegister req);
                   call_resBody := false |}) in *.
  enough (exists res err req' calls,
    RegisterDummy' req cli = (Some (res, err, req'), cli, calls)
    /\ (res = None <-> err <> None)
    /\ match uia1 with
       | Some u =>
           if HasSingleStageFlow u "m.login.dummy" then
             req' = {| Account := Account req;
                       Auth := Some ("m.login.dummy", Session u) |}
             /\ calls = [call1;
                         {| call_method := "POST"; call_url := registerURL cli;
                            call_reqBody := Some (box_ReqRegister req');
                            call_resBody := false |}]
           else req' = req /\ calls = [call1]
       | None => req' = req /\ calls = [call1]
       end) as (res & err & req' & calls & H1 & H2 & H3).
  { exists res, err, req', calls, res1, uia1, err1. by rewrite Hreg1. }
  unfold RegisterDummy. unfold mbind at 1. unfold R_bind at 1.
  rewrite Hreg1. cbn [fst snd].
  case_bool_decide as Hearly.
  { destruct Hearly as [Herr ->]. runR'.
    eexists _, _, _, _. split; [reflexivity|]. split; [|done]. by split. }
  destruct uia1 as [u|].
  - destruct (HasSingleStageFlow u "m.login.dummy") eqn:Hflow.
    + set (req2 := {| Account := Account req;
                      Auth := Some ("m.login.dummy", Session u) |}).
      destruct (Register_runs req2 cli) as ([[res2 uia2] err2] & Hreg2 & _).
      unfold mbind at 1. unfold R_bind at 1.
      unfold mbind at 1. unfold R_bind at 1.
      rewrite Hreg2. runR'.
      destruct err2 as [e2|]; runR'.
      * eexists _, _, _, _. split; [reflexivity|]. split; [by split|done].
      * destruct res2 as [r2|]; runR';
          (eexists _, _, _, _; split; [reflexivity|]; split; [|done]);
          split; try done; by intros [].
    + runR'. destruct res1 as [r1|]; runR';
        (eexists _, _, _, _; split; [reflexivity|]; split; [|done]);
        split; try done; by intros [].
  - runR'. destruct res1 as [r1|]; runR';
      (eexists _, _, _, _; split; [reflexivity|]; split; [|done]);
      split; try done; by intros [].
Qed.
End RegisterProperties.

(** * Properties of the media requests *)

Section MediaProperties.
Import Requests.
Variable URL_String : URL -> string.
Variable url_Parse : string -> URL.
Variable url_PathEscape : string -> string.
Variable path_Join : list string -> string.
Variable url_ParseQuery : string -> Values.
Variable Values_Encode : Values -> string.
Variable http_NewRequest : string -> string -> Reader -> Request + error.
Variable Client_Do : Request -> Response + error.
Variable Client_Get : string -> Response + error.
Variable RespMediaUpload : Type.
Variable json_Decode_RespMediaUpload : Reader -> RespMediaUpload + error.

Abbreviation BuildBaseURL' :=
  (BuildBaseURL URL_String url_Parse url_PathEscape path_Join url_ParseQuery
     Values_Encode).
Abbreviation Upload' :=
  (Upload URL_String url_Parse url_PathEscape path_Join url_ParseQuery
     Values_Encode http_NewRequest Client_Do RespMediaUpload
     json_Decode_RespMediaUpload).
Abbreviation UploadBytes' :=
  (UploadBytes URL_String url_Parse url_PathEscape path_Join url_ParseQuery
     Values_Encode http_NewRequest Client_Do RespMediaUpload
     json_Decode_RespMediaUpload).
Abbreviation Download' :=
  (Download URL_String url_Parse url_PathEscape path_Join url_ParseQuery
     Values_Encode Client_Get).
Abbreviation DownloadBytes' :=
  (DownloadBytes URL_String url_Parse url_PathEscape path_Join url_ParseQuery
     Values_Encode Client_Get).

(** The request [Upload] sends, from the one [http.NewRequest] made. *)
Abbreviation prepared cli contentType contentLength req :=
  (with_ContentLength contentLength
     (req_Header_Set "Authorization" ("Bearer " +:+ AccessToken cli)
        (req_Header_Set "Content-Type" contentType req))).

(** X15. [Upload] returns a response or an error, never both and never
    neither; it sends at most one request; and it returns a response only
    when that request was answered with status 200. *)
Theorem Upload_returns_a_response_or_an_error (cli : Client)
    (content : Reader) (contentType : string) (contentLength : Z) :
  let out := Upload' cli content contentType contentLength in
  (fst (fst out) = None <-> snd (fst out) <> None)
  /\ (length (snd out) <= 1)%nat
  /\ (fst (fst out) <> None ->
      exists req res,
        snd out = [DoCall req] /\ Client_Do req = inl res
        /\ StatusCode res = 200).
Proof.
  assert (forall (e : error) (calls : list HTTPCall),
            (length calls <= 1)%nat ->
            let out : option RespMediaUpload * option error * list HTTPCall :=
              ((None, Some e), calls) in
            (fst (fst out) = None <-> snd (fst out) <> None)
            /\ (length (snd out) <= 1)%nat
            /\ (fst (fst out) <> None ->
                exists req res,
                  snd out = [DoCall req] /\ Client_Do req = inl res
                  /\ StatusCode res = 200)) as Hfail.
  { intros e calls Hcalls. cbn. split; [by split|]. split; [done|]. done. }
  cbn zeta. unfold Upload.
  destruct (http_NewRequest _ _ _) as [req|err]; [|apply Hfail; cbn; lia].
  destruct (Client_Do _) as [res|err] eqn:Hdo; [|apply Hfail; cbn; lia].
  destruct (StatusCode res =? 200) eqn:Hstatus; cbn [negb].
  - apply Z.eqb_eq in Hstatus.
    destruct (json_Decode_RespMediaUpload _) as [m|err];
      [|apply Hfail; cbn; lia].
    cbn. split; [by split|]. split; [lia|]. intros _. by eexists _, _.
  - unfold ioutil_ReadAll.
    destruct (failure (resp_Body res)); apply Hfail; cbn; lia.
Qed.

(** X16. [Upload] takes every status other than 200 for a failure, the
    other 2xx statuses too: it returns no response and an [HTTPError] with
    that status, wrapping nothing, whose message ends with the body of
    the response as sent, or with the text of the error met while reading
    it. *)
Theorem Upload_accepts_status_200_only (cli : Client) (data : Reader)
    (contentType : string) (contentLength : Z) (req : Request)
    (res : Response) :
  http_NewRequest "POST"
    (BuildBaseURL' cli ["_matrix"; "media"; "r0"; "upload"]) data
    = inl req ->
  Client_Do (prepared cli contentType contentLength req) = inl res ->
  StatusCode res <> 200 ->
  exists h : HTTPError error,
    fst (Upload' cli data contentType contentLength)
    = (None, Some (httpError h))
    /\ Code h = StatusCode res
    /\ WrappedError h = None /\ RespError_ h = None
    /\ Message h =
       match failure (resp_Body res) with
       | None => "Upload request failed: " +:+ content (resp_Body res)
       | Some err =>
           "Upload request failed - Failed to read response body: "
           +:+ Error err
       end
    /\ (failure (resp_Body res) = None ->
        contains (Message h) (content (resp_Body res))).
Proof.
  intros Hnew Hdo Hstatus. unfold Upload. rewrite Hnew, Hdo.
  apply Z.eqb_neq in Hstatus. rewrite Hstatus. cbn [negb].
  unfold ioutil_ReadAll.
  destruct (failure (resp_Body res)) as [err|]; eexists;
    (split; [reflexivity|]); cbn; repeat split; try done.
  intros _. apply contains_suffix.
Qed.

(** X17. Every request [UploadBytes] sends has the number of bytes of
    the data as its content length, the given content type, and the
    access token of the client as bearer; and it sends nothing else. *)
Theorem UploadBytes_sends_the_length_of_the_data (cli : Client)
    (data contentType : string) :
  Forall (fun c => match c with
                   | DoCall req =>
                       req_ContentLength req = Z.of_nat (String.length data)
                       /\ req_Header req !! "Content-Type" = Some contentType
                       /\ req_Header req !! "Authorization"
                          = Some ("Bearer " +:+ AccessToken cli)
                   | GetCall _ => False
                   end)
         (snd (UploadBytes' cli data contentType)).
Proof.
  unfold UploadBytes, Upload.
  destruct (http_NewRequest _ _ _) as [req|err]; [|by constructor].
  assert (req_ContentLength (prepared cli contentType (len data) req)
          = Z.of_nat (String.length data)
          /\ req_Header (prepared cli contentType (len data) req)
               !! "Content-Type" = Some contentType
          /\ req_Header (prepared cli contentType (len data) req)
               !! "Authorization" = Some ("Bearer " +:+ AccessToken cli))
    as (Hlen & Hct & Hauth).
  { cbn. split; [done|]. split.
    - rewrite lookup_insert_ne by done. by rewrite lookup_insert_eq.
    - by rewrite lookup_insert_eq. }
  destruct (Client_Do _) as [res|err]; [|by repeat constructor].
  destruct (negb (StatusCode res =? 200)).
  - unfold ioutil_ReadAll.
    destruct (failure (resp_Body res)); by repeat constructor.
  - destruct (json_Decode_RespMediaUpload _); by repeat constructor.
Qed.

Lemma HasPrefix_app (p rest : string) : HasPrefix (p +:+ rest) p = true.
Proof.
  induction p as [|a p IH]; [by destruct rest|].
  change (Ascii.eqb a a && HasPrefix (p +:+ rest) p = true).
  by rewrite Ascii.eqb_refl, IH.
Qed.

Lemma sliceFrom_app (p rest : string) :
  sliceFrom (String.length p) (p +:+ rest) = rest.
Proof. induction p as [|a p IH]; [done|]. exact IH. Qed.

Lemma HasPrefix_inv (s p : string) :
  HasPrefix s p = true -> s = p +:+ sliceFrom (String.length p) s.
Proof.
  revert s. induction p as [|a p IH]; intros s Hs; [done|].
  destruct s as [|b s]; [done|]. cbn in Hs.
  apply andb_true_iff in Hs as [Hab Hs]. apply Ascii.eqb_eq in Hab as ->.
  change (String b s = String b (p +:+ sliceFrom (String.length p) s)).
  f_equal. by apply IH.
Qed.

Lemma Split_nonempty (s : string) : Split s slash <> [].
Proof.
  destruct s as [|c s]; [done|]. cbn.
  destruct (Ascii.eqb c slash); [done|]. by destruct (Split s slash).
Qed.

(** A string without a slash is its own single part. *)
Lemma Split_noSlash (s : string) : noSlash s = true -> Split s slash = [s].
Proof.
  induction s as [|c s IH]; [done|]. cbn. intros Hs.
  apply andb_true_iff in Hs as [Hc Hs]. apply negb_true_iff in Hc.
  change (Ascii.eqb c slash = false) in Hc. by rewrite Hc, IH.
Qed.

(** The first slash ends the first part. *)
Lemma Split_app (a b : string) :
  noSlash a = true ->
  Split (a +:+ String slash b) slash = a :: Split b slash.
Proof.
  induction a as [|c a IH]; intros Ha.
  - change (Split (String slash b) slash = "" :: Split b slash). done.
  - cbn in Ha. apply andb_true_iff in Ha as [Hc Ha]. apply negb_true_iff in Hc.
    change (Ascii.eqb c slash = false) in Hc.
    change (Split (String c (a +:+ String slash b)) slash
            = String c a :: Split b slash).
    cbn [Split]. by rewrite Hc, IH.
Qed.

(** The parts of a string, read back: the first part has no slash, and
    the string is that part alone, or that part, a slash, and a string
    with the other parts. *)
Lemma Split_inv (s p : string) (ps : list string) :
  Split s slash = p :: ps ->
  noSlash p = true
  /\ match ps with
     | [] => s = p
     | _ :: _ => exists b, s = p +:+ String slash b /\ Split b slash = ps
     end.
Proof.
  revert p ps. induction s as [|c s IH]; intros p ps Hs.
  { cbn in Hs. by injection Hs as <- <-. }
  cbn in Hs. destruct (Ascii.eqb c slash) eqn:Hc.
  - injection Hs as <- <-. split; [done|].
    apply Ascii.eqb_eq in Hc as ->.
    pose proof (Split_nonempty s) as Hne.
    destruct (Split s slash) as [|q qs] eqn:Hsplit; [done|].
    by exists s.
  - destruct (Split s slash) as [|q qs] eqn:Hsplit.
    { by destruct (Split_nonempty s). }
    injection Hs as <- <-.
    destruct (IH q qs eq_refl) as [Hq Hrest]. split.
    + cbn [noSlash]. change (ascii_of_nat 47) with slash. by rewrite Hc, Hq.
    + destruct qs as [|q' qs'].
      * by rewrite Hrest.
      * destruct Hrest as (b & -> & Hb). by exists b.
Qed.

(** [Download] on a content URL with a server and a media ID. *)
Lemma Download_valid (cli : Client) (server mediaID : string) :
  noSlash server = true -> noSlash mediaID = true ->
  let u := BuildBaseURL' cli
             ["_matrix"; "media"; "r0"; "download"; server; mediaID] in
  Download' cli ("mxc://" +:+ server +:+ "/" +:+ mediaID)
  = (match Client_Get u with
     | inr err => (None, Some err)
     | inl resp => (Some (resp_Body resp), None)
     end, [GetCall u]).
Proof.
  intros Hserver Hid. cbn zeta. unfold Download.
  rewrite (HasPrefix_app "mxc://"), (sliceFrom_app "mxc://"). cbn [negb].
  change ("/" +:+ mediaID) with (String slash mediaID).
  rewrite Split_app, Split_noSlash by done. cbn.
  by destruct (Client_Get _).
Qed.

(** X18. [Download] accepts exactly the content URLs "mxc://", a server
    name, one slash and a media ID, where neither the server name nor the
    media ID has a slash; either may be empty.  For such a URL it makes
    one GET, to the download URL of that server and ID.  For any other
    text it returns the error "invalid Matrix content URL" and makes no
    request. *)
Theorem Download_accepts_exactly_server_and_media_id (cli : Client) :
  (forall server mediaID,
     noSlash server = true -> noSlash mediaID = true ->
     let u := BuildBaseURL' cli
                ["_matrix"; "media"; "r0"; "download"; server; mediaID] in
     Download' cli ("mxc://" +:+ server +:+ "/" +:+ mediaID)
     = (match Client_Get u with
        | inr err => (None, Some err)
        | inl resp => (Some (resp_Body resp), None)
        end, [GetCall u]))
  /\ (forall mxcURL,
       Download' cli mxcURL
       = ((None, Some (errorString "invalid Matrix content URL")), [])
       \/ exists server mediaID,
            noSlash server = true /\ noSlash mediaID = true
            /\ mxcURL = "mxc://" +:+ server +:+ "/" +:+ mediaID).
Proof.
  split; [apply Download_valid|].
  intros mxcURL. unfold Download.
  destruct (HasPrefix mxcURL "mxc://") eqn:Hprefix; [|by left].
  cbn [negb]. apply HasPrefix_inv in Hprefix.
  set (rest := sliceFrom (String.length "mxc://") mxcURL) in *.
  destruct (Split rest slash) as [|p0 [|p1 [|p2 ps]]] eqn:Hsplit;
    try (by left).
  right. apply Split_inv in Hsplit as [Hp0 (b & Hrest & Hb)].
  apply Split_inv in Hb as [Hp1 ->].
  exists p0, p1. split; [done|]. split; [done|].
  rewrite Hprefix, Hrest. done.
Qed.

(** X19. [Download] and [DownloadBytes] do not look at the status of the
    response: whatever the status, [DownloadBytes] returns the bytes of
    the body, with the error met while reading them if there was one; an
    error page comes back as data. *)
Theorem DownloadBytes_ignores_the_status (cli : Client)
    (server mediaID : string) (resp : Response) :
  noSlash server = true -> noSlash mediaID = true ->
  let u := BuildBaseURL' cli
             ["_matrix"; "media"; "r0"; "download"; server; mediaID] in
  let mxcURL := "mxc://" +:+ server +:+ "/" +:+ mediaID in
  Client_Get u = inl resp ->
  Download' cli mxcURL = ((Some (resp_Body resp), None), [GetCall u])
  /\ DownloadBytes' cli mxcURL
     = ((Some (content (resp_Body resp)), failure (resp_Body resp)),
        [GetCall u]).
Proof.
  intros Hserver Hid u mxcURL Hget. unfold DownloadBytes.
  unfold mxcURL. rewrite Download_valid by done. fold u. by rewrite Hget.
Qed.
End MediaProperties.


(** * The errors of the checkpoint dispatcher *)

Section CheckpointErrors.
Import Appservice.
Context {EventType : Type} `{EqDecision EventType}.
Variable DefaultUserAgent : string.

Lemma hasLineFeed_app (a b : string) :
  hasLineFeed (a +:+ b) = hasLineFeed a || hasLineFeed b.
Proof.
  induction a as [|x a IH]; [done|].
  change (Ascii.eqb x (ascii_of_nat 10) || hasLineFeed (a +:+ b)
          = Ascii.eqb x (ascii_of_nat 10) || hasLineFeed a || hasLineFeed b).
  rewrite IH. by rewrite orb_assoc.
Qed.

Lemma escapeNewlines_one_line (s : string) :
  hasLineFeed (escapeNewlines s) = false.
Proof.
  induction s as [|c s IH]; [done|]. cbn [escapeNewlines].
  destruct (Ascii.eqb c (ascii_of_nat 10)) eqn:Hc.
  - exact IH.
  - cbn [hasLineFeed]. by rewrite Hc, IH.
Qed.

Lemma escapeNewlines_id (s : string) :
  hasLineFeed s = false -> escapeNewlines s = s.
Proof.
  induction s as [|c s IH]; [done|]. cbn [hasLineFeed escapeNewlines].
  intros Hs. apply orb_false_iff in Hs as [Hc Hs]. by rewrite Hc, IH.
Qed.

Lemma pretty_N_char_not_LF (n : N) :
  Ascii.eqb (pretty_N_char n) (ascii_of_nat 10) = false.
Proof.
  destruct n as [|p]; [done|].
  do 4 (try destruct p as [p|p|]; try done).
Qed.

Lemma pretty_N_go_one_line (x : N) :
  forall s, hasLineFeed s = false -> hasLineFeed (pretty_N_go x s) = false.
Proof.
  induction (N.lt_wf_0 x) as [x _ IH]. intros s Hs.
  destruct (decide (x = 0)%N) as [->|Hx].
  { by rewrite pretty_N_go_0. }
  rewrite pretty_N_go_step by lia. apply IH.
  - apply N.div_lt; lia.
  - cbn [hasLineFeed]. by rewrite pretty_N_char_not_LF.
Qed.

(** The decimal text of a number is one line. *)
Lemma pretty_Z_one_line (z : Z) : hasLineFeed (pretty z) = false.
Proof.
  assert (forall p : positive, hasLineFeed (pretty p) = false) as Hpos.
  { intros p. unfold pretty, pretty_positive, pretty, pretty_N.
    case_decide; [done|]. by apply pretty_N_go_one_line. }
  destruct z as [|p|p]; [done|apply Hpos|].
  change (hasLineFeed ("-" +:+ pretty p) = false).
  rewrite hasLineFeed_app. by rewrite Hpos.
Qed.

(** X20. When the endpoint answers the POST of [SendCheckpoints] with a
    status outside 200..299, the error returned is one line of text, even
    if the body of the response has line feeds in it: it names the
    status, and a body without line feeds is in it as it was sent. *)
Theorem rejected_checkpoints_give_a_one_line_error (env : Env EventType)
    (as_ : AppService) (cps : list (MessageSendCheckpoint EventType))
    (body : string) (resp : HTTPResponse) :
  HasWebsocket as_ = false ->
  MessageSendCheckpointEndpoint as_ <> "" ->
  json_Encode env {| Checkpoints := cps |} = inl body ->
  http_NewRequest_err env (MessageSendCheckpointEndpoint as_) = None ->
  http_Do env (checkpointPost DefaultUserAgent as_ body) = inl resp ->
  ~ (200 <= resp_StatusCode resp <= 299) ->
  exists msg : string,
    fst (SendCheckpoints DefaultUserAgent env as_ cps)
    = Some (errorString msg)
    /\ hasLineFeed msg = false
    /\ contains msg (pretty (resp_StatusCode resp))
    /\ (forall b, resp_Body resp = Some b -> hasLineFeed b = false ->
        contains msg b).
Proof.
  intros Hws Hend Hjson Hnew Hdo Hstatus. unfold SendCheckpoints.
  rewrite Hws, bool_decide_eq_false_2, Hjson, Hnew by done.
  change (req_Header_Set _ _ _) with (checkpointPost DefaultUserAgent as_ body).
  rewrite Hdo.
  assert ((resp_StatusCode resp <? 200) || (299 <? resp_StatusCode resp)
          = true) as ->.
  { apply orb_true_iff.
    destruct (Z.ltb_spec (resp_StatusCode resp) 200); [by left|].
    destruct (Z.ltb_spec 299 (resp_StatusCode resp)); [by right|]. lia. }
  eexists. split; [reflexivity|]. split; [|split].
  - rewrite !hasLineFeed_app, pretty_Z_one_line.
    destruct (resp_Body resp); [|done]. by rewrite escapeNewlines_one_line.
  - exists "Unexpected status code ". by eexists.
  - intros b -> Hb. rewrite escapeNewlines_id by done.
    rewrite <- !append_assoc. apply contains_suffix.
Qed.
End CheckpointErrors.

(** * The further properties at concrete inputs *)

Section FurtherWitnesses.
Import Mautrix Examples.


(** A first run on which the homeserver refuses the filter: a cycle of
    generation 0 is retired by it. *)
Lemma failed_start_still_retires_the_running_cycle_witness :
  LoadFilterID (Store freshClient) (UserID freshClient) = ""
  /\ filterRefused (GetFilterJSON (Syncer_ freshClient) (UserID freshClient))
     = inr (errorString "M_FORBIDDEN")
  /\ 0 <= syncingID freshClient < 2 ^ 32
  /\ result (ok s1) = FetchOK s1
  /\ meanwhile (ok s1) = []
  /\ outcome (Sync filterRefused [ok s1] freshClient)
     = Returned (Some (errorString "M_FORBIDDEN")).
Proof.
  assert (0 <= syncingID freshClient < 2 ^ 32) as Hgen by (cbn; lia).
  split; [reflexivity|]. split; [reflexivity|]. split; [exact Hgen|].
  split; [reflexivity|]. split; [reflexivity|].
  exact (proj1
    (failed_start_still_retires_the_running_cycle filterRefused [ok s1]
       freshClient (errorString "M_FORBIDDEN") (ok s1) s1 "" "f1"
       eq_refl eq_refl Hgen eq_refl eq_refl)).
Defined.


(** A first run that creates the filter "f9", and a second call on the
    same client with a homeserver that would refuse a filter. *)
Lemma filter_is_created_once_witness :
  LoadFilterID (Store freshClient) (UserID freshClient) = ""
  /\ filterCreated (GetFilterJSON (Syncer_ freshClient) (UserID freshClient))
     = inl {| FilterID := "f9" |}
  /\ FilterID {| FilterID := "f9" |} <> ""
  /\ LoadFilterID
       (Store (final (Sync filterCreated [ok s1; ok s2] freshClient))) bot
     = "f9".
Proof.
  assert (FilterID {| FilterID := "f9" |} <> "") as Hfid by (cbn; discriminate).
  split; [reflexivity|]. split; [reflexivity|]. split; [exact Hfid|].
  exact (proj1
    (filter_is_created_once (St := InMemoryStore) filterCreated [ok s1; ok s2]
       freshClient {| FilterID := "f9" |} filterRefused [ok s3]
       eq_refl eq_refl Hfid)).
Defined.
End FurtherWitnesses.

Section RequestWitnesses.
Import Requests RequestExamples.


(** An upload answered with 201 Created. *)
Lemma Upload_accepts_status_200_only_witness :
  let u := BuildBaseURL URL_String url_Parse url_PathEscape path_Join
             url_ParseQuery Values_Encode cli
             ["_matrix"; "media"; "r0"; "upload"] in
  let req := {| req_Method := "POST"; req_URL := u; req_Header := ∅;
                req_Body := bytes_NewReader "png"; req_ContentLength := 0 |} in
  newRequest "POST" u (bytes_NewReader "png") = inl req
  /\ StatusCode created <> 200
  /\ exists h : HTTPError error,
       fst (Upload URL_String url_Parse url_PathEscape path_Join
              url_ParseQuery Values_Encode newRequest (fun _ => inl created)
              string decodeUpload cli (bytes_NewReader "png") "image/png" 3)
       = (None, Some (httpError h))
       /\ Code h = 201.
Proof.
  cbn zeta. assert (StatusCode created <> 200) as Hstatus by (cbn; lia).
  split; [reflexivity|]. split; [exact Hstatus|].
  destruct (Upload_accepts_status_200_only URL_String url_Parse
              url_PathEscape path_Join url_ParseQuery Values_Encode
              newRequest (fun _ => inl created) string decodeUpload cli
              (bytes_NewReader "png") "image/png" 3 _ created
              eq_refl eq_refl Hstatus)
    as (h & Hout & Hcode & _).
  exists h. split; [exact Hout|exact Hcode].
Defined.

(** A download answered with 404: the page comes back as the data. *)
Lemma DownloadBytes_ignores_the_status_witness :
  noSlash "example.org" = true
  /\ noSlash "abc" = true
  /\ fst (DownloadBytes URL_String url_Parse url_PathEscape path_Join
            url_ParseQuery Values_Encode (fun _ => inl notFound) cli
            "mxc://example.org/abc")
     = (Some "not found", None).
Proof.
  split; [reflexivity|]. split; [reflexivity|].
  exact (f_equal fst (proj2
    (DownloadBytes_ignores_the_status URL_String url_Parse url_PathEscape
       path_Join url_ParseQuery Values_Encode (fun _ => inl notFound) cli
       "example.org" "abc" notFound eq_refl eq_refl eq_refl))).
Defined.

(** The two lines of the failing proxy, reported on one line. *)
Lemma rejected_checkpoints_give_a_one_line_error_witness :
  Appservice.HasWebsocket bridge = false
  /\ Appservice.MessageSendCheckpointEndpoint bridge <> ""
  /\ ~ (200 <= 502 <= 299)
  /\ hasLineFeed twoLines = true
  /\ exists msg : string,
       fst (Appservice.SendCheckpoints "mautrix-go" failingProxy bridge [])
       = Some (errorString msg)
       /\ hasLineFeed msg = false.
Proof.
  assert (Appservice.MessageSendCheckpointEndpoint bridge <> "") as Hend
    by (cbn; discriminate).
  assert (~ (200 <= 502 <= 299)) as Hstatus by lia.
  split; [reflexivity|]. split; [exact Hend|]. split; [exact Hstatus|].
  split; [reflexivity|].
  destruct (rejected_checkpoints_give_a_one_line_error "mautrix-go"
              failingProxy bridge [] "{}"
              {| Appservice.resp_StatusCode := 502;
                 Appservice.resp_Body := Some twoLines |}
              eq_refl Hend eq_refl eq_refl eq_refl Hstatus)
    as (msg & Hout & Hline & _).
  exists msg. split; [exact Hout|exact Hline].
Defined.
End RequestWitnesses.

